(** * County risk dashboard: a shallow embedding of [app.py]

    The program loads a table of county health indicators, derives a
    percentile and a risk category, and answers questions about a county
    with a block of statistics and a short explanation.

    Modelling choices, all taken from the source:
    - text is [string] (a sequence of bytes); [lower] and [strip] are the
      ASCII restrictions of Python's [str.lower] and [str.strip];
    - numbers are exact and finite: an integer cell holds a [Z], a floating
      cell holds the rational [Q] its value denotes, order tests are the
      exact ones and the arithmetic of the percentile is carried out without
      rounding; the infinite floating values ([inf] and [-inf], which
      [read_csv] reads from a file that spells them out) are not values of
      the model, so every statement below is about tables whose numbers are
      finite, and the one place where an infinite value would add an outcome
      of its own, [int(inf)] raising [OverflowError], is outside it;
    - a row is a dictionary from column names to cells ([gmap string cell])
      together with its county name; a missing value is the cell [NaN];
    - code that can raise returns a [result]. *)

From Stdlib Require Import QArith Qabs Qround Lqa.
From Stdlib Require Import Ascii String DecimalString.
From Stdlib Require Import OrdersEx.
From stdpp Require Import base option list sorting gmap strings.

Local Open Scope string_scope.

(** ** Exceptions *)

Inductive exn : Set := KeyError | IndexError | TypeError | ValueError.

Inductive result (A : Type) : Type :=
| Ok (a : A)
| Raise (e : exn).
Arguments Ok {A} a.
Arguments Raise {A} e.

Definition rbind {A B} (m : result A) (k : A → result B) : result B :=
  match m with
  | Ok a => k a
  | Raise e => Raise e
  end.

Notation "'let*' x ':=' m 'in' k" := (rbind m (fun x => k))
  (at level 10, x name, m at level 100, k at level 200).

(** ** Text *)

Module Text.

(** The characters [str.strip] removes, among the first 128. *)
Definition is_space (a : ascii) : bool :=
  let n := nat_of_ascii a in
  ((9 <=? n)%nat && (n <=? 13)%nat) || ((28 <=? n)%nat && (n <=? 32)%nat).

Definition lower_ascii (a : ascii) : ascii :=
  let n := nat_of_ascii a in
  if ((65 <=? n)%nat && (n <=? 90)%nat) then ascii_of_nat (n + 32) else a.

(** [s.lower()] *)
Fixpoint lower (s : string) : string :=
  match s with
  | EmptyString => EmptyString
  | String a s' => String (lower_ascii a) (lower s')
  end.

Fixpoint lstrip (s : string) : string :=
  match s with
  | EmptyString => EmptyString
  | String a s' => if is_space a then lstrip s' else s
  end.

Fixpoint rstrip (s : string) : string :=
  match s with
  | EmptyString => EmptyString
  | String a s' =>
      match rstrip s' with
      | EmptyString => if is_space a then EmptyString else String a EmptyString
      | t => String a t
      end
  end.

(** [s.strip()] *)
Definition strip (s : string) : string := rstrip (lstrip s).

Fixpoint prefixb (p s : string) : bool :=
  match p, s with
  | EmptyString, _ => true
  | String a p', String b s' => if Ascii.eqb a b then prefixb p' s' else false
  | String _ _, EmptyString => false
  end.

(** [sub in s] *)
Fixpoint contains (sub s : string) : bool :=
  prefixb sub s ||
  match s with
  | EmptyString => false
  | String _ s' => contains sub s'
  end.

(** [sep.join(l)] *)
Fixpoint join (sep : string) (l : list string) : string :=
  match l with
  | [] => ""
  | [x] => x
  | x :: l' => x ++ sep ++ join sep l'
  end.

(** The order of [sorted] on text: by code unit, then by length. *)
Definition le (a b : string) : Prop := String_as_OT.compare a b ≠ Gt.

Definition starts_with_space (s : string) : Prop :=
  ∃ a t, s = String a t ∧ is_space a = true.
Definition ends_with_space (s : string) : Prop :=
  ∃ t a, s = t ++ String a EmptyString ∧ is_space a = true.

End Text.

(** ** Cells and numbers *)

(** A cell of the table: a missing value, an integer, a finite floating
    value (the rational it denotes) or text.  An infinite floating value has
    no cell. *)
Inductive cell : Type :=
| NaN
| Int (z : Z)
| Float (q : Q)
| Str (s : string).

(** [pd.notna] *)
Definition notna (c : cell) : bool :=
  match c with NaN => false | _ => true end.

Definition is_str (c : cell) : bool :=
  match c with Str _ => true | _ => false end.

(** The numeric value of a cell, when it has one. *)
Definition num_val (c : cell) : option Q :=
  match c with
  | Int z => Some (inject_Z z)
  | Float q => Some q
  | NaN | Str _ => None
  end.

Definition Qltb (x y : Q) : bool := negb (Qle_bool y x).

Module Fmt.

Definition digits (n : N) : string := NilZero.string_of_uint (N.to_uint n).

(** Text of an integer, as [str] prints it. *)
Definition str_int (z : Z) : string :=
  (if (z <? 0)%Z then "-" else "") ++ digits (Z.abs_N z).

(** Nearest integer to a non-negative rational, ties to even. *)
Definition round_half_even (q : Q) : N :=
  let a := Qnum q in
  let b := Zpos (Qden q) in
  let f := (a / b)%Z in
  let r := (a mod b)%Z in
  Z.to_N
    (match (2 * r ?= b)%Z with
     | Lt => f
     | Gt => f + 1
     | Eq => if Z.even f then f else f + 1
     end)%Z.

Fixpoint zeros (k : nat) : string :=
  match k with O => "" | S k' => String "0" (zeros k') end.

Definition pad_left (d : nat) (s : string) : string :=
  zeros (d - String.length s) ++ s.

Fixpoint commas (rev_digits : list ascii) (k : nat) : list ascii :=
  match rev_digits with
  | [] => []
  | d :: r =>
      match r with
      | [] => [d]
      | _ => if (k =? 2)%nat then d :: ","%char :: commas r 0
             else d :: commas r (S k)
      end
  end.

(** Thousands separators of the [,] format option. *)
Definition group3 (s : string) : string :=
  string_of_list_ascii (rev (commas (rev (list_ascii_of_string s)) 0)).

(** [format(q, ".df")], or [",.df"] when [grouped], for a finite number. *)
Definition fixed (grouped : bool) (d : nat) (q : Q) : string :=
  let n := round_half_even (Qabs q * inject_Z (10 ^ Z.of_nat d)) in
  let p := N.pow 10 (N.of_nat d) in
  let ip := digits (n / p) in
  (if Qltb q 0 then "-" else "")
    ++ (if grouped then group3 ip else ip)
    ++ (match d with
        | O => ""
        | _ => "." ++ pad_left d (digits (n mod p))
        end).

(** [format(c, ".df")] on a cell: text has no [f] presentation. *)
Definition cell_fixed (grouped : bool) (d : nat) (c : cell) : result string :=
  match c with
  | NaN => Ok "nan"
  | Int z => Ok (fixed grouped d (inject_Z z))
  | Float q => Ok (fixed grouped d q)
  | Str _ => Raise ValueError
  end.

(** Truncation toward zero, [int(q)]. *)
Definition trunc (q : Q) : Z := Z.quot (Qnum q) (Zpos (Qden q)).

End Fmt.

(** ** The table *)

(** A row: the county name and the other columns by name. *)
Record Row : Type := mkRow { County : string; cells : gmap string cell }.

(** A data frame: its column names and its rows, in order. *)
Record DataFrame : Type := mkFrame { columns : list string; rows : list Row }.

(** [row[name]] seen as a value: a column the row lacks reads as missing. *)
Definition col (name : string) (r : Row) : cell := default NaN (cells r !! name).

Definition set_cell (name : string) (c : cell) (r : Row) : Row :=
  mkRow (County r) (<[name := c]> (cells r)).

(** [data["County"].astype(str).str.strip()] on names already text. *)
Definition normalize (raw : DataFrame) : DataFrame :=
  mkFrame (columns raw)
          ((λ r, mkRow (Text.strip (County r)) (cells r)) <$> rows raw).

(** [Series.unique()]: the values in order of first appearance. *)
Fixpoint unique_from (seen : gset string) (l : list string) : list string :=
  match l with
  | [] => []
  | x :: l' =>
      if decide (x ∈ seen) then unique_from seen l'
      else x :: unique_from ({[x]} ∪ seen) l'
  end.
Definition unique (l : list string) : list string := unique_from ∅ l.

#[global] Instance Text_le_dec (a b : string) : Decision (Text.le a b).
Proof. unfold Text.le. apply _. Defined.

(** [sorted([c for c in data["County"].dropna().unique()
             if c.lower() != "texas"])] *)
Definition counties_of (data : DataFrame) : list string :=
  merge_sort Text.le
    (filter (λ c, Text.lower c ≠ "texas") (unique (County <$> rows data))).

(** *** Percentile from the score *)

#[global] Instance Qlt_decision (x y : Q) : Decision (x < y)%Q.
Proof. destruct (Qlt_le_dec x y); [left | right]; auto using Qle_not_lt. Defined.
#[global] Instance Qeq_decision (x y : Q) : Decision (x == y)%Q := Qeq_dec x y.

Module Rank.

Definition count_lt (x : Q) (l : list Q) : nat :=
  length (filter (λ y, (y < x)%Q) l).
Definition count_eq (x : Q) (l : list Q) : nat :=
  length (filter (λ y, (y == x)%Q) l).

Definition ofnat (n : nat) : Q := inject_Z (Z.of_nat n).

(** Rank of [x] among [l], ties sharing the average of their places. *)
Definition average (x : Q) (l : list Q) : Q :=
  (ofnat (count_lt x l) + (ofnat (count_eq x l) + 1) / 2)%Q.

(** The fraction of the valid values ranked at or below a cell. *)
Definition rank_cell (valid : list Q) (c : cell) : cell :=
  match num_val c with
  | Some x => Float (average x valid / ofnat (length valid))
  | None => NaN
  end.

(** [Series.rank(pct=True)]: missing values stay missing and are left out
    of the count.  A column holding text is outside what the table is
    read as numerically and is refused. *)
Definition rank_pct (column : list cell) : result (list cell) :=
  if existsb is_str column then Raise TypeError
  else Ok (rank_cell (omap num_val column) <$> column).

(** [_ * 100] on the floating series [rank] returns. *)
Definition times100 (c : cell) : cell :=
  match c with
  | Float q => Float (q * 100)
  | other => other
  end.

End Rank.

(** [left.merge(right, on="County", how="left")] where [right] has the two
    columns County and Risk_Percentile: each left row once per right row of
    the same county, or once with a missing value when there is none. *)
Definition merge_row (right : list (string * cell)) (r : Row) : list Row :=
  match filter (λ kv, kv.1 = County r) right with
  | [] => [set_cell "Risk_Percentile" NaN r]
  | ms => (λ kv, set_cell "Risk_Percentile" kv.2 r) <$> ms
  end.
Definition merge_left (left : list Row) (right : list (string * cell)) : list Row :=
  left ≫= merge_row right.

Definition not_texas (r : Row) : Prop := Text.lower (County r) ≠ "texas".

Definition derive_percentile (data : DataFrame) : result DataFrame :=
  if bool_decide ("Risk_Percentile" ∉ columns data)
     && bool_decide ("Risk_Score" ∈ columns data)
  then
    let tmp_counties := filter not_texas (rows data) in
    let* ranks := Rank.rank_pct (col "Risk_Score" <$> tmp_counties) in
    let pct := Rank.times100 <$> ranks in
    Ok (mkFrame (columns data ++ ["Risk_Percentile"])%list
                (merge_left (rows data) (zip (County <$> tmp_counties) pct)))
  else Ok data.

(** The percentile [derive_percentile] computes for a row of [tmp_counties],
    for the statements below. *)
Definition percentile_of (tmp_counties : list Row) (r : Row) : cell :=
  Rank.times100
    (Rank.rank_cell (omap num_val (col "Risk_Score" <$> tmp_counties))
                    (col "Risk_Score" r)).
Definition ranked (tmp_counties : list Row) : list (string * cell) :=
  (λ r, (County r, percentile_of tmp_counties r)) <$> tmp_counties.

(** The percentile column of one row, when county names are unique. *)
Definition with_percentile (tmp_counties : list Row) (r : Row) : Row :=
  set_cell "Risk_Percentile"
    (if decide (not_texas r) then percentile_of tmp_counties r else NaN) r.

(** The valid scores of the counties of a table. *)
Definition county_scores (left : list Row) : list Q :=
  omap num_val (col "Risk_Score" <$> filter not_texas left).

(** *** Category from the percentile *)

Module Cut.

Definition bins : list Q := [0; 3333 # 100; 6666 # 100; 100]%Q.
Definition labels : list string := ["Low"; "Moderate"; "High"].

(** [bins.searchsorted(x, side="left")] on increasing [bins]. *)
Definition searchsorted_left (bs : list Q) (x : Q) : nat :=
  length (filter (λ b, (b < x)%Q) bs).

(** One value through [pd.cut(_, bins, labels=labels, include_lowest=True)]
    with the default [right=True]. *)
Definition cut_value (bs : list Q) (ls : list string) (include_lowest : bool)
    (c : cell) : cell :=
  match num_val c with
  | None => NaN
  | Some x =>
      let ids := searchsorted_left bs x in
      let at_lowest :=
        match bs with
        | b0 :: _ => bool_decide (x == b0)%Q
        | [] => false
        end in
      let ids := if include_lowest && at_lowest then 1 else ids in
      if bool_decide (ids = 0 ∨ ids = length bs) then NaN
      else match ls !! (ids - 1) with
           | Some l => Str l
           | None => NaN
           end
  end.

End Cut.

(** [pd.cut] over a column; text cannot be compared with the bin edges. *)
Definition cut_column (column : list cell) : result (list cell) :=
  if existsb is_str column then Raise TypeError
  else Ok (Cut.cut_value Cut.bins Cut.labels true <$> column).

Definition derive_category (data : DataFrame) : result DataFrame :=
  if bool_decide ("Risk_Category" ∉ columns data)
     && bool_decide ("Risk_Percentile" ∈ columns data)
  then
    let* cats := cut_column (col "Risk_Percentile" <$> rows data) in
    Ok (mkFrame (columns data ++ ["Risk_Category"])%list
                (zip_with (set_cell "Risk_Category") cats (rows data)))
  else Ok data.

(** What [derive_category] makes of one row, for the statements below. *)
Definition with_category (r : Row) : Row :=
  set_cell "Risk_Category"
    (Cut.cut_value Cut.bins Cut.labels true (col "Risk_Percentile" r)) r.

(** The Texas reference value for diabetes, if present. *)
Definition texas_reference (data : DataFrame) : option cell :=
  match filter (λ r, Text.lower (County r) = "texas") (rows data) with
  | r :: _ =>
      if bool_decide ("Diabetes" ∈ columns data) then Some (col "Diabetes" r)
      else None
  | [] => None
  end.

(** What the module holds once its top level has run. *)
Record App : Type := mkApp {
  data : DataFrame;
  counties : list string;
  texas_diabetes : option cell
}.

Definition load (raw : DataFrame) : result App :=
  let data0 := normalize raw in
  let counties := counties_of data0 in
  let* data1 := derive_percentile data0 in
  let* data2 := derive_category data1 in
  Ok (mkApp data2 counties (texas_reference data2)).

(** ** Helpers *)

(** Try to find a county name mentioned in the user text. *)
Fixpoint first_mentioned (cs : list string) (msg : string) : option string :=
  match cs with
  | [] => None
  | c :: cs' =>
      if Text.contains (Text.lower c) msg then Some c
      else first_mentioned cs' msg
  end.
Definition find_county_from_text (counties : list string) (user_text : string)
    : option string :=
  first_mentioned counties (Text.lower user_text).

(** [data.loc[data["County"] == county].iloc[0]] *)
Definition county_snapshot (data : DataFrame) (county : string) : result Row :=
  match filter (λ r, County r = county) (rows data) with
  | r :: _ => Ok r
  | [] => Raise IndexError
  end.

(** The three order tests the program uses. *)
Inductive order_test : Set := OpGt | OpGe | OpLe.

Definition test_num (op : order_test) (x y : Q) : bool :=
  match op with
  | OpGt => Qltb y x
  | OpGe => Qle_bool y x
  | OpLe => Qle_bool x y
  end.

Definition test_text (op : order_test) (s t : string) : bool :=
  match op, String_as_OT.compare s t with
  | OpGt, Gt => true
  | OpGe, (Gt | Eq) => true
  | OpLe, (Lt | Eq) => true
  | _, _ => false
  end.

(** [a op b] on cells: a missing value compares false with every number,
    text compares with text only. *)
Definition py_test (op : order_test) (a b : cell) : result bool :=
  match a, b with
  | Str s, Str t => Ok (test_text op s t)
  | Str _, _ | _, Str _ => Raise TypeError
  | _, _ =>
      match num_val a, num_val b with
      | Some x, Some y => Ok (test_num op x y)
      | _, _ => Ok false
      end
  end.

(** ** Explanation and statistics *)

Section Responder.

(** Two functions of the Python runtime the program relies on and that
    are not part of it: the text [str] gives a floating value, and the
    integer [int] reads from text, if any. *)
Variable str_float : Q → string.
Variable int_of_text : string → option Z.

(** [format(c, "")], what a bare replacement field prints. *)
Definition str_cell (c : cell) : string :=
  match c with
  | NaN => "nan"
  | Int z => Fmt.str_int z
  | Float q => str_float q
  | Str s => s
  end.

(** [int(c)] on the cells of the model: [ValueError] on a missing value and
    on text that does not read as an integer, the value cut toward zero on a
    finite floating value.  Python's third outcome, [OverflowError] on an
    infinite floating value, has no cell that leads to it. *)
Definition to_int (c : cell) : result Z :=
  match c with
  | NaN => Raise ValueError
  | Int z => Ok z
  | Float q => Ok (Fmt.trunc q)
  | Str s =>
      match int_of_text s with
      | Some z => Ok z
      | None => Raise ValueError
      end
  end.

(** [row[name]] on a row taken from the frame. *)
Definition getitem (row : Row) (name : string) : result cell :=
  match cells row !! name with
  | Some c => Ok c
  | None => Raise KeyError
  end.

(** Benchmark vs Texas average diabetes. *)
Definition benchmark_part (texas_diabetes : option cell) (row : Row)
    : result (list string) :=
  match texas_diabetes, cells row !! "Diabetes" with
  | Some t, Some d =>
      if notna d then
        let* above := py_test OpGt d t in
        let* shown := Fmt.cell_fixed false 1 t in
        if above : bool then
          Ok ["This county’s diabetes prevalence is **above** the Texas overall value (**"
                ++ shown ++ "%**)."]
        else
          Ok ["This county’s diabetes prevalence is **below** the Texas overall value (**"
                ++ shown ++ "%**)."]
      else Ok []
  | _, _ => Ok []
  end.

(** Composite risk label. *)
Definition category_part (row : Row) : list string :=
  match cells row !! "Risk_Category" with
  | Some c =>
      if notna c then
        ["Overall, the composite risk level is **" ++ str_cell c ++ "**."]
      else []
  | None => []
  end.

(** One threshold rule: the label when the field is there, not missing,
    and passes the test against the threshold. *)
Definition driver_rule (row : Row) (name : string) (op : order_test)
    (threshold : Z) (label : string) : result (list string) :=
  match cells row !! name with
  | Some c =>
      if notna c then
        let* fires := py_test op c (Int threshold) in
        Ok (if fires : bool then [label] else [])
      else Ok []
  | None => Ok []
  end.

(** Why the risk might be high (simple heuristics). *)
Definition drivers (row : Row) : result (list string) :=
  let* d1 := driver_rule row "Obesity" OpGe 35 "higher obesity" in
  let* d2 := driver_rule row "Uninsured" OpGe 15 "higher uninsured rate" in
  let* d3 := driver_rule row "Median_Income" OpLe 60000 "lower median income" in
  Ok (d1 ++ d2 ++ d3)%list.

Definition drivers_part (ds : list string) : list string :=
  match ds with
  | [] => []
  | _ => ["Key drivers in this profile include " ++ Text.join ", " ds ++ "."]
  end.

(** PM2.5 note. *)
Definition pm25_part (row : Row) : list string :=
  match cells row !! "PM2.5" with
  | Some c =>
      if notna c then
        ["PM2.5 is included for context; in this dataset it showed a weaker direct county-level correlation with diabetes than obesity, income, and uninsured rate."]
      else []
  | None => []
  end.

Definition explanation_parts (texas_diabetes : option cell) (row : Row)
    : result (list string) :=
  let* p1 := benchmark_part texas_diabetes row in
  let p2 := category_part row in
  let* ds := drivers row in
  Ok (p1 ++ p2 ++ drivers_part ds ++ pm25_part row)%list.

(** Short, user-friendly explanation paragraph. *)
Definition risk_explanation (texas_diabetes : option cell) (row : Row)
    : result string :=
  let* parts := explanation_parts texas_diabetes row in
  Ok (match parts with
      | [] => "Ask about another county or explore the Rankings tab."
      | _ => Text.join " " parts
      end).

Definition not_found : string :=
  "I couldn't find that county. Try asking about a Texas county!".

(** The block of statistics of one row; the fields are read and
    formatted from first to last. *)
Definition stats_response (county : string) (row : Row) : result string :=
  let* diabetes := getitem row "Diabetes" in
  let* obesity := getitem row "Obesity" in
  let* uninsured := getitem row "Uninsured" in
  let* income_cell := getitem row "Median_Income" in
  let* income := Fmt.cell_fixed true 0 income_cell in
  let* score_cell := getitem row "Risk_Score" in
  let* score := Fmt.cell_fixed false 2 score_cell in
  let* rank_cell := getitem row "Risk_Rank" in
  let* rank := to_int rank_cell in
  Ok ("
Here are the health stats for " ++ county ++ ":

• Diabetes rate: " ++ str_cell diabetes ++ "%
• Obesity rate: " ++ str_cell obesity ++ "%
• Uninsured: " ++ str_cell uninsured ++ "%
• Median Income: $" ++ income ++ "
• Composite Risk Score: " ++ score ++ "
• Risk Rank (TX counties): " ++ Fmt.str_int rank ++ "
").

(** The loop of [chatbot] over [data['County']], in table order. *)
Fixpoint chatbot_scan (data : DataFrame) (msg : string) (cs : list string)
    : result string :=
  match cs with
  | [] => Ok not_found
  | county :: cs' =>
      if Text.contains (Text.lower county) msg then
        let* row := county_snapshot data county in
        stats_response county row
      else chatbot_scan data msg cs'
  end.

Definition chatbot (data : DataFrame) (message : string) : result string :=
  chatbot_scan data (Text.lower message) (County <$> rows data).

(** The Risk Rank metric of the sidebar:
    [int(row.get('Risk_Rank')) if pd.notna(row.get('Risk_Rank', None))
     else 'N/A'] *)
Definition sidebar_rank (row : Row) : result string :=
  match cells row !! "Risk_Rank" with
  | Some c =>
      if notna c then let* rank := to_int c in Ok (Fmt.str_int rank)
      else Ok "N/A"
  | None => Ok "N/A"
  end.

End Responder.

(** ** Pages *)

Section Pages.

Variable str_float : Q → string.
Variable int_of_text : string → option Z.

(** The entries of the sidebar's select box. *)
Definition lookup_options (counties : list string) : list string :=
  "(choose)" :: counties.

(** [f"{row.get(name, 'N/A')}"] *)
Definition metric (row : Row) (name : string) : string :=
  match cells row !! name with
  | Some c => str_cell str_float c
  | None => "N/A"
  end.

(** Quick County Lookup: the four metrics of the selected county, in the
    order the script computes them, or nothing for "(choose)". *)
Definition quick_lookup (data : DataFrame) (selected : string)
    : result (list (string * string)) :=
  if decide (selected = "(choose)") then Ok []
  else
    let* row := county_snapshot data selected in
    let diabetes := metric row "Diabetes" in
    let uninsured := metric row "Uninsured" in
    let obesity := metric row "Obesity" in
    let* rank := sidebar_rank int_of_text row in
    Ok [("Diabetes %", diabetes); ("Uninsured %", uninsured);
        ("Obesity %", obesity); ("Risk Rank", rank)].

Definition guidance : string :=
  "I couldn’t find a Texas county in your message. Try **“Harris County”** or pick one from the sidebar.".

(** The county the chat answers about: the one found in the message, or
    else the sidebar's selection if there is one. *)
Definition county_for (counties : list string) (selected user_input : string)
    : option string :=
  match find_county_from_text counties user_input with
  | Some c => Some c
  | None => if decide (selected = "(choose)") then None else Some selected
  end.

(** The answer of the chat page to one message. *)
Definition chat_answer (app : App) (selected user_input : string)
    : result string :=
  match county_for (counties app) selected user_input with
  | None => Ok guidance
  | Some county_found =>
      let* row := county_snapshot (data app) county_found in
      let* answer := chatbot str_float int_of_text (data app) county_found in
      let* explanation :=
        risk_explanation str_float (texas_diabetes app) row in
      Ok (answer ++ "

**Quick interpretation:** " ++ explanation)
  end.

(** A message of the history: its role and its content. *)
Definition message : Type := string * string.

(** One run of the chat page on the session's history: the user's message
    is appended before the answer is computed, the assistant's after; an
    empty input leaves the history as it is. *)
Definition chat_page (app : App) (selected : string)
    (user_input : option string) (messages : list message)
    : list message * result unit :=
  match user_input with
  | None | Some EmptyString => (messages, Ok ())
  | Some text =>
      let messages := (messages ++ [("user", text)])%list in
      match chat_answer app selected text with
      | Ok answer => ((messages ++ [("assistant", answer)])%list, Ok ())
      | Raise e => (messages, Raise e)
      end
  end.

(** The history after a series of runs, each with its selection and input. *)
Fixpoint run_chat (app : App) (turns : list (string * option string))
    (messages : list message) : list message :=
  match turns with
  | [] => messages
  | (selected, user_input) :: turns' =>
      run_chat app turns' (chat_page app selected user_input messages).1
  end.

End Pages.

(** ** Vocabulary of the statements *)

(** A threshold rule fires on a row: the field is there, holds a number,
    and the number passes the test. *)
Definition rule_fires (row : Row) (name : string) (P : Q → Prop) : Prop :=
  ∃ c x, cells row !! name = Some c ∧ num_val c = Some x ∧ P x.

(** The field, if there, is a number or missing. *)
Definition no_text (row : Row) (name : string) : Prop :=
  ∀ s, cells row !! name ≠ Some (Str s).

(** The field is there and holds a number. *)
Definition numeric_field (row : Row) (name : string) : Prop :=
  ∃ c x, cells row !! name = Some c ∧ num_val c = Some x.

(** The field is not there or holds a missing value. *)
Definition absent_or_missing (row : Row) (name : string) : Prop :=
  cells row !! name = None ∨ cells row !! name = Some NaN.

(** A sentence that does not start like the fallback text. *)
Definition not_fallback_start (s : string) : Prop :=
  ∃ c rest, s = String c rest ∧ c ≠ "A"%char.

(** The shape of a chat history: it does not open with an answer, every
    answer comes right after a message of the user, and there is no other
    role. *)
Definition dialogue_shape (h : list message) : Prop :=
  (∀ a, h !! 0%nat ≠ Some ("assistant", a))
  ∧ (∀ i a, h !! S i = Some ("assistant", a) → ∃ u, h !! i = Some ("user", u))
  ∧ (∀ m, m ∈ h → m.1 = "user" ∨ m.1 = "assistant").

(** ** Sample tables *)

Module Demo.

Definition header : list string :=
  ["County"; "Diabetes"; "Obesity"; "Uninsured"; "Median_Income";
   "Risk_Score"; "Risk_Rank"].

Definition fields (diabetes obesity uninsured income score rank : cell)
    : gmap string cell :=
  list_to_map
    [("Diabetes", diabetes); ("Obesity", obesity); ("Uninsured", uninsured);
     ("Median_Income", income); ("Risk_Score", score); ("Risk_Rank", rank)].

Definition texas : Row :=
  mkRow "Texas" (fields (Float 11) NaN NaN NaN NaN NaN).
Definition harris : Row :=
  mkRow "Harris"
    (fields (Float (142 # 10)) (Int 36) (Int 18) (Int 55000) (Float 80) (Int 1)).
Definition harrison : Row :=
  mkRow "Harrison"
    (fields (Float (128 # 10)) (Int 34) (Int 14) (Int 61000) (Float 55) (Int 2)).
Definition bell : Row :=
  mkRow " Bell "
    (fields (Float 12) (Int 30) (Int 10) (Int 65000) (Float 40) (Int 3)).

(** The statewide row first, then three counties. *)
Definition table : DataFrame := mkFrame header [texas; harris; harrison; bell].

(** A table that comes with its percentiles, on the bin edges. *)
Definition scored (name : string) (percentile : cell) : Row :=
  mkRow name {[ "Risk_Percentile" := percentile ]}.
Definition percentiles : DataFrame :=
  mkFrame ["County"; "Risk_Percentile"]
    [scored "Anderson" (Float 0); scored "Bell" (Float (3333 # 100));
     scored "Collin" (Float (6666 # 100)); scored "Dallas" (Float 100)].

(** A county whose score is missing, next to the statewide row. *)
Definition loving : Row :=
  mkRow "Loving" (fields (Float 9) (Int 28) (Int 12) (Int 90000) NaN NaN).
Definition unscored : DataFrame := mkFrame header [texas; harris; loving].

(** A statewide row with every field filled in. *)
Definition texas_filled : Row :=
  mkRow "Texas"
    (fields (Float 11) (Int 33) (Int 17) (Int 67000) (Float 50) (Int 0)).
Definition benchmarked : DataFrame := mkFrame header [texas_filled; harris].

(** A table in which a county name comes twice, with two scores. *)
Definition harris_again : Row :=
  mkRow "Harris"
    (fields (Float 13) (Int 31) (Int 15) (Int 58000) (Float 40) (Int 3)).
Definition repeated : DataFrame := mkFrame header [harris; bell; harris_again].

(** A floating value printed with one decimal, which is what [str] gives
    the values of the sample tables. *)
Definition str_float (q : Q) : string := Fmt.fixed false 1 q.

(** No text of the sample tables reads as an integer. *)
Definition int_of_text (s : string) : option Z := None.

End Demo.

(** * Properties *)

(** ** Evaluation on small inputs *)

Example lower_Harris : Text.lower "Harris County, TX" = "harris county, tx".
Proof. reflexivity. Qed.
Example strip_Harris : Text.strip "  Harris  " = "Harris".
Proof. reflexivity. Qed.
Example contains_travis :
  Text.contains "travis" (Text.lower "How risky is Travis County?") = true.
Proof. reflexivity. Qed.
Example fixed_11 : Fmt.fixed false 1 11 = "11.0".
Proof. reflexivity. Qed.
Example fixed_income : Fmt.fixed true 0 55000 = "55,000".
Proof. reflexivity. Qed.
Example fixed_million : Fmt.fixed true 0 (12345675 # 10) = "1,234,568".
Proof. reflexivity. Qed.
Example fixed_tie_even : Fmt.fixed false 2 (1 # 8) = "0.12".
Proof. reflexivity. Qed.
Example fixed_negative : Fmt.fixed false 2 (- (5 # 1000)) = "-0.00".
Proof. reflexivity. Qed.
Example fixed_score : Fmt.fixed false 2 80 = "80.00".
Proof. reflexivity. Qed.
Example trunc_neg : Fmt.trunc (- (7 # 2)) = (-3)%Z.
Proof. reflexivity. Qed.


(** ** Text *)

Module TextFacts.
Import Text.

Lemma le_iff a b : le a b ↔ a = b ∨ String_as_OT.lt a b.
Proof.
  unfold le, String_as_OT.lt.
  destruct (String_as_OT.compare_spec a b) as [E|L|G]; split; intros H;
    try (left; exact E); try (right; reflexivity); try discriminate;
    try congruence.
  destruct H as [->|H]; [|discriminate].
  exfalso. exact (StrictOrder_Irreflexive _ G).
Qed.

#[global] Instance le_total : Total le.
Proof.
  intros a b. rewrite !le_iff.
  destruct (String_as_OT.compare_spec a b) as [E|L|G]; auto.
Qed.

#[global] Instance le_trans : Transitive le.
Proof.
  intros a b c. rewrite !le_iff. intros [->|H1] [->|H2]; auto.
  right. exact (StrictOrder_Transitive _ _ _ H1 H2).
Qed.

#[global] Instance le_antisym : AntiSymm (=) le.
Proof.
  intros a b. rewrite !le_iff. intros [->|H1] [E|H2]; auto.
  exfalso. exact (StrictOrder_Irreflexive _ (StrictOrder_Transitive _ _ _ H1 H2)).
Qed.

Lemma lstrip_no_leading s : ¬ starts_with_space (lstrip s).
Proof.
  induction s as [|a s IH]; simpl.
  - intros (b & t & E & _). discriminate.
  - destruct (is_space a) eqn:Ha; [exact IH|].
    intros (b & t & E & Hb). injection E as -> ->. congruence.
Qed.

Lemma rstrip_head a s :
  is_space a = false → ∃ t, rstrip (String a s) = String a t.
Proof.
  intros Ha. simpl. destruct (rstrip s); [rewrite Ha|]; eauto.
Qed.

Lemma rstrip_no_leading s :
  ¬ starts_with_space s → ¬ starts_with_space (rstrip s).
Proof.
  destruct s as [|a s].
  - intros _ (b & t & E & _). discriminate.
  - intros Hs. destruct (is_space a) eqn:Ha.
    + exfalso. apply Hs. exists a, s. auto.
    + destruct (rstrip_head a s Ha) as [t Ht]. rewrite Ht.
      intros (b & u & E & Hb). injection E as -> ->. congruence.
Qed.

Lemma rstrip_no_trailing s : ¬ ends_with_space (rstrip s).
Proof.
  induction s as [|a s IH]; simpl.
  - intros ([|c t] & b & E & _); discriminate.
  - destruct (rstrip s) as [|c u] eqn:Hr.
    + destruct (is_space a) eqn:Ha.
      * intros ([|c t] & b & E & _); discriminate.
      * intros ([|c t] & b & E & Hb); simpl in E.
        -- injection E as ->. congruence.
        -- injection E as -> E. destruct t; discriminate.
    + intros ([|d t] & b & E & Hb); simpl in E; [discriminate|].
      injection E as -> E. apply IH. exists t, b. auto.
Qed.

Lemma strip_trimmed s :
  ¬ starts_with_space (strip s) ∧ ¬ ends_with_space (strip s).
Proof.
  split.
  - apply rstrip_no_leading, lstrip_no_leading.
  - apply rstrip_no_trailing.
Qed.

Lemma lower_app s t : lower (s ++ t) = lower s ++ lower t.
Proof. induction s as [|a s IH]; simpl; [reflexivity|]. by rewrite IH. Qed.

Lemma prefixb_app p s : prefixb p (p ++ s) = true.
Proof.
  induction p as [|a p IH]; simpl; [reflexivity|].
  by rewrite Ascii.eqb_refl.
Qed.

Lemma prefixb_spec p s : prefixb p s = true ↔ ∃ t, s = p ++ t.
Proof.
  split.
  - revert s. induction p as [|a p IH]; intros s H; simpl in *; [eauto|].
    destruct s as [|b s]; [discriminate|].
    destruct (Ascii.eqb a b) eqn:E; [|discriminate].
    apply Ascii.eqb_eq in E as ->. destruct (IH _ H) as [t ->]. eauto.
  - intros [t ->]. apply prefixb_app.
Qed.

Lemma contains_prefix p s : prefixb p s = true → contains p s = true.
Proof. intros H. destruct s; simpl; by rewrite H. Qed.

(** [sub in s] holds exactly when [s] splits around a copy of [sub]. *)
Lemma contains_spec sub s :
  contains sub s = true ↔ ∃ a b, s = a ++ sub ++ b.
Proof.
  split.
  - induction s as [|c s IH]; simpl; rewrite orb_true_iff.
    + intros [H|H]; [|discriminate].
      apply prefixb_spec in H as [t ->]. by exists "", t.
    + intros [H|H].
      * apply prefixb_spec in H as [t E]. exists "", t. exact E.
      * destruct (IH H) as (a & b & ->). by exists (String c a), b.
  - intros (a & b & ->). induction a as [|c a IH].
    + apply contains_prefix. exact (prefixb_app sub b).
    + simpl. rewrite IH. apply orb_true_r.
Qed.

Lemma contains_lower_embedded name a b :
  contains (lower name) (lower (a ++ name ++ b)) = true.
Proof. apply contains_spec. rewrite !lower_app. eauto. Qed.

End TextFacts.

(** ** The county list *)

Lemma elem_of_unique_from (seen : gset string) (l : list string) (x : string) :
  x ∈ unique_from seen l ↔ x ∈ l ∧ x ∉ seen.
Proof.
  revert seen. induction l as [|y l IH]; intros seen; simpl.
  - rewrite elem_of_nil. tauto.
  - case_decide as Hy.
    + rewrite IH, elem_of_cons. split; [tauto|].
      intros [[->|Hx] Hs]; [contradiction|tauto].
    + rewrite !elem_of_cons, IH, not_elem_of_union, elem_of_singleton.
      destruct (decide (x = y)) as [->|Hne]; tauto.
Qed.

Lemma NoDup_unique_from (seen : gset string) (l : list string) :
  NoDup (unique_from seen l).
Proof.
  revert seen. induction l as [|y l IH]; intros seen; simpl.
  - constructor.
  - case_decide; [apply IH|]. constructor; [|apply IH].
    rewrite elem_of_unique_from, not_elem_of_union, elem_of_singleton. tauto.
Qed.

Lemma elem_of_unique (l : list string) (x : string) : x ∈ unique l ↔ x ∈ l.
Proof.
  unfold unique. rewrite elem_of_unique_from.
  pose proof (not_elem_of_empty (C:=gset string) x). tauto.
Qed.

Lemma elem_of_counties_of (data : DataFrame) (c : string) :
  c ∈ counties_of data ↔ Text.lower c ≠ "texas" ∧ c ∈ County <$> rows data.
Proof.
  unfold counties_of. rewrite merge_sort_Permutation.
  by rewrite list_elem_of_filter, elem_of_unique.
Qed.

Lemma NoDup_counties_of (data : DataFrame) : NoDup (counties_of data).
Proof.
  unfold counties_of. rewrite merge_sort_Permutation.
  apply NoDup_filter, NoDup_unique_from.
Qed.

Lemma sorted_counties_of (data : DataFrame) :
  StronglySorted Text.le (counties_of data).
Proof. apply StronglySorted_merge_sort; apply _. Qed.

(** C8.  Whatever the input table, the county list is sorted in the order
    of text (by code unit), has no duplicates, holds exactly the trimmed
    names of the table other than those equal to "texas" once lower-cased,
    and none of its names starts or ends with white space. *)
Theorem counties_sorted_distinct_trimmed (raw : DataFrame) :
  StronglySorted Text.le (counties_of (normalize raw))
  ∧ NoDup (counties_of (normalize raw))
  ∧ (∀ c, c ∈ counties_of (normalize raw) ↔
          Text.lower c ≠ "texas"
          ∧ ∃ r, r ∈ rows raw ∧ c = Text.strip (County r))
  ∧ (∀ c, c ∈ counties_of (normalize raw) →
          Text.lower c ≠ "texas"
          ∧ ¬ Text.starts_with_space c ∧ ¬ Text.ends_with_space c).
Proof.
  assert (Hmem : ∀ c, c ∈ counties_of (normalize raw) ↔
            Text.lower c ≠ "texas"
            ∧ ∃ r, r ∈ rows raw ∧ c = Text.strip (County r)).
  { intros c. rewrite elem_of_counties_of. simpl.
    rewrite <- list_fmap_compose, list_elem_of_fmap. simpl.
    split; intros [H (r & Hr1 & Hr2)]; split; eauto. }
  split; [apply sorted_counties_of|].
  split; [apply NoDup_counties_of|].
  split; [exact Hmem|].
  intros c Hc. apply Hmem in Hc as [Hne (r & _ & ->)].
  split; [exact Hne|]. apply TextFacts.strip_trimmed.
Qed.

(** ** List facts shared by the proofs below *)

Local Open Scope list_scope.

(** Closed decidable facts, by evaluation. *)
Ltac by_decide :=
  match goal with |- ?P => apply (bool_decide_unpack P); vm_compute; exact I end.

Section ListFacts.
Context {A : Type} (P : A → Prop) `{!∀ x, Decision (P x)}.

Lemma filter_head_split (l : list A) (x : A) (rest : list A) :
  filter P l = x :: rest →
  ∃ pre post, l = pre ++ x :: post ∧ P x ∧ Forall (λ y, ¬ P y) pre.
Proof.
  induction l as [|y l IH]; [discriminate|].
  rewrite filter_cons. case_decide as Hy.
  - intros [= -> _]. exists [], l. auto.
  - intros Hf. destruct (IH Hf) as (pre & post & -> & Hx & Hpre).
    exists (y :: pre), post. auto.
Qed.

Lemma filter_empty_iff (l : list A) :
  filter P l = [] ↔ ∀ y, y ∈ l → ¬ P y.
Proof.
  split.
  - intros Hf y Hy Py. eapply filter_nil_not_elem_of; eauto.
  - intros Hf. induction l as [|y l IH]; [reflexivity|].
    rewrite filter_cons_False; [|apply Hf; left].
    apply IH. intros z Hz. apply Hf. by right.
Qed.

Lemma filter_inhabited (l : list A) (x : A) :
  x ∈ l → P x → ∃ y rest, filter P l = y :: rest.
Proof.
  intros Hx Px. destruct (filter P l) as [|y rest] eqn:E; [|eauto].
  exfalso. eapply filter_empty_iff; eauto.
Qed.

End ListFacts.

(** ** Lookup by name *)

Lemma county_snapshot_hit (data : DataFrame) (name : string) :
  name ∈ County <$> rows data →
  ∃ r pre post,
    county_snapshot data name = Ok r
    ∧ rows data = pre ++ r :: post
    ∧ County r = name
    ∧ Forall (λ r', County r' ≠ name) pre.
Proof.
  intros (r0 & -> & Hr0)%list_elem_of_fmap. unfold county_snapshot.
  destruct (filter_inhabited (λ r, County r = County r0) _ _ Hr0 eq_refl)
    as (r & rest & E).
  rewrite E. apply filter_head_split in E as (pre & post & E & Hr & Hpre).
  exists r, pre, post. auto.
Qed.

Lemma county_snapshot_miss (data : DataFrame) (name : string) :
  name ∉ County <$> rows data → county_snapshot data name = Raise IndexError.
Proof.
  intros Hn. unfold county_snapshot.
  destruct (filter _ _) as [|r rest] eqn:E; [reflexivity|].
  apply filter_head_split in E as (pre & post & E & Hr & _).
  exfalso. apply Hn. apply list_elem_of_fmap. exists r. split; [done|].
  rewrite E. apply elem_of_app. right. left.
Qed.

(** ** The loader keeps the county names *)

Lemma merge_row_inv (right : list (string * cell)) (r r' : Row) :
  r' ∈ merge_row right r →
  ∃ c, r' = set_cell "Risk_Percentile" c r
       ∧ (c = NaN ∧ (∀ kv, kv ∈ right → kv.1 ≠ County r)
          ∨ (County r, c) ∈ right).
Proof.
  unfold merge_row.
  destruct (filter _ right) as [|kv ms] eqn:E.
  - intros ->%list_elem_of_singleton. exists NaN. split; [done|]. left.
    split; [done|]. by apply (filter_empty_iff (λ kv, kv.1 = County r)).
  - rewrite <- E. intros ([k c] & -> & Hkv)%list_elem_of_fmap.
    apply list_elem_of_filter in Hkv as [Hk Hin]. simpl in *. subst k.
    exists c. auto.
Qed.

Lemma merge_row_inhabited (right : list (string * cell)) (r : Row) :
  ∃ r', r' ∈ merge_row right r.
Proof.
  unfold merge_row. destruct (filter _ right) as [|kv ms].
  - eexists. left.
  - eexists. rewrite fmap_cons. left.
Qed.

Lemma merge_left_names (left : list Row) (right : list (string * cell))
    (c : string) :
  c ∈ County <$> merge_left left right ↔ c ∈ County <$> left.
Proof.
  unfold merge_left. rewrite !list_elem_of_fmap. split.
  - intros (r' & -> & (r & Hr' & Hr)%list_elem_of_bind).
    apply merge_row_inv in Hr' as (v & -> & _). exists r. auto.
  - intros (r & -> & Hr). destruct (merge_row_inhabited right r) as [r' Hr'].
    exists r'. split.
    + apply merge_row_inv in Hr' as (v & -> & _). reflexivity.
    + apply list_elem_of_bind. eauto.
Qed.

Lemma derive_percentile_names (data data' : DataFrame) (c : string) :
  derive_percentile data = Ok data' →
  c ∈ County <$> rows data' ↔ c ∈ County <$> rows data.
Proof.
  unfold derive_percentile. destruct (_ && _); [|by intros [= ->]].
  destruct (Rank.rank_pct _) as [ranks|e]; simpl; [|discriminate].
  intros [= <-]. simpl. apply merge_left_names.
Qed.

Lemma cut_column_ok (column cats : list cell) :
  cut_column column = Ok cats →
  cats = Cut.cut_value Cut.bins Cut.labels true <$> column.
Proof. unfold cut_column. destruct (existsb _ _); congruence. Qed.

Lemma derive_category_rows (data data' : DataFrame) :
  derive_category data = Ok data' →
  data' = data
  ∨ (("Risk_Category" ∉ columns data) ∧ ("Risk_Percentile" ∈ columns data)
     ∧ rows data' = (with_category <$> rows data)).
Proof.
  unfold derive_category.
  destruct (bool_decide ("Risk_Category" ∉ _)) eqn:E1; simpl;
    [|intros [= ->]; by left].
  destruct (bool_decide ("Risk_Percentile" ∈ _)) eqn:E2; simpl;
    [|intros [= ->]; by left].
  apply bool_decide_eq_true in E1, E2.
  destruct (cut_column _) as [cats|e] eqn:Ec; simpl; [|discriminate].
  intros [= <-]. right. split; [done|]. split; [done|]. simpl.
  apply cut_column_ok in Ec as ->.
  rewrite <- list_fmap_compose, zip_with_fmap_l, zip_with_diag. reflexivity.
Qed.

Lemma derive_category_names (data data' : DataFrame) (c : string) :
  derive_category data = Ok data' →
  c ∈ County <$> rows data' ↔ c ∈ County <$> rows data.
Proof.
  intros [->|(_ & _ & ->)]%derive_category_rows; [done|].
  by rewrite <- list_fmap_compose.
Qed.

Lemma load_inv (raw : DataFrame) (app : App) :
  load raw = Ok app →
  ∃ data1,
    derive_percentile (normalize raw) = Ok data1
    ∧ derive_category data1 = Ok (data app)
    ∧ counties app = counties_of (normalize raw)
    ∧ texas_diabetes app = texas_reference (data app).
Proof.
  unfold load.
  destruct (derive_percentile _) as [data1|e]; simpl; [|discriminate].
  destruct (derive_category _) as [data2|e] eqn:E2; simpl; [|discriminate].
  intros [= <-]. simpl. eauto.
Qed.

Lemma load_names (raw : DataFrame) (app : App) (c : string) :
  load raw = Ok app →
  c ∈ counties app → c ∈ County <$> rows (data app).
Proof.
  intros (data1 & H1 & H2 & -> & _)%load_inv [_ Hc]%elem_of_counties_of.
  by rewrite (derive_category_names _ _ _ H2), (derive_percentile_names _ _ _ H1).
Qed.

(** C3 (amended).  A lookup by a name the table holds returns the first row
    of that name, and every name of the county list of a loaded table is
    such a name; a lookup by a name the table does not hold raises
    IndexError: no sentinel is returned. *)
Theorem lookup_hits_or_raises (raw : DataFrame) (app : App) (name : string) :
  load raw = Ok app →
  (name ∈ counties app → name ∈ County <$> rows (data app))
  ∧ (name ∈ County <$> rows (data app) →
       ∃ r pre post,
         county_snapshot (data app) name = Ok r
         ∧ rows (data app) = pre ++ r :: post
         ∧ County r = name
         ∧ Forall (λ r', County r' ≠ name) pre)
  ∧ (name ∉ County <$> rows (data app) →
       county_snapshot (data app) name = Raise IndexError).
Proof.
  intros Hload. split; [|split].
  - by apply (load_names raw).
  - apply county_snapshot_hit.
  - apply county_snapshot_miss.
Qed.

(** C3, as stated, fails: on the sample table a lookup by a name that is
    not there raises IndexError. *)
Lemma lookup_miss_raises :
  ∃ app, load Demo.table = Ok app
         ∧ county_snapshot (data app) "Nonexistent County" = Raise IndexError.
Proof. eexists. split; vm_compute; reflexivity. Qed.

Lemma lookup_hits_or_raises_witness :
  ∃ app, load Demo.table = Ok app
    ∧ ("Harris" ∈ counties app → "Harris" ∈ County <$> rows (data app))
    ∧ county_snapshot (data app) "Nonexistent County" = Raise IndexError.
Proof.
  eexists. split; [vm_compute; reflexivity|].
  pose proof (lookup_hits_or_raises Demo.table _ "Harris" eq_refl) as (H1 & _).
  pose proof (lookup_hits_or_raises Demo.table _ "Nonexistent County" eq_refl)
    as (_ & _ & H3).
  split; [exact H1|]. apply H3.
  intros (r & Hc & Hr)%list_elem_of_fmap. vm_compute in Hr.
  repeat (apply elem_of_cons in Hr as [->|Hr]; [discriminate Hc|]).
  by apply elem_of_nil in Hr.
Defined.

(** ** The matcher *)

Lemma first_mentioned_some (cs : list string) (msg c : string) :
  first_mentioned cs msg = Some c →
  ∃ pre post,
    cs = pre ++ c :: post
    ∧ Text.contains (Text.lower c) msg = true
    ∧ Forall (λ c', Text.contains (Text.lower c') msg = false) pre.
Proof.
  induction cs as [|x cs IH]; simpl; [discriminate|].
  destruct (Text.contains (Text.lower x) msg) eqn:E.
  - intros [= ->]. exists [], cs. auto.
  - intros Hf. destruct (IH Hf) as (pre & post & -> & Hc & Hpre).
    exists (x :: pre), post. auto.
Qed.

Lemma first_mentioned_none (cs : list string) (msg : string) :
  first_mentioned cs msg = None ↔
  ∀ c, c ∈ cs → Text.contains (Text.lower c) msg = false.
Proof.
  induction cs as [|x cs IH]; simpl.
  - split; [intros _ c Hc; by apply elem_of_nil in Hc | done].
  - destruct (Text.contains (Text.lower x) msg) eqn:E.
    + split; [discriminate|]. intros Hn. rewrite Hn in E; [discriminate|left].
    + rewrite IH. split.
      * intros Hn c [->|Hc]%elem_of_cons; auto.
      * intros Hn c Hc. apply Hn. by right.
Qed.

(** C4 (amended).  For a name of the county list embedded verbatim in a
    text, the matcher returns a county of the list: the first, in the order
    of the list, whose lower-cased name occurs in the lower-cased text.  It
    is sorted no later than the name, its lookup succeeds, and it is the
    name itself, with the same lookup, whenever no other county sorted
    before the name occurs in the text. *)
Theorem find_then_lookup (raw : DataFrame) (app : App) (name a b : string) :
  load raw = Ok app →
  name ∈ counties app →
  ∃ c r,
    find_county_from_text (counties app) (a +:+ name +:+ b) = Some c
    ∧ c ∈ counties app
    ∧ Text.contains (Text.lower c) (Text.lower (a +:+ name +:+ b)) = true
    ∧ Text.le c name
    ∧ county_snapshot (data app) c = Ok r ∧ County r = c
    ∧ ((∀ c', c' ∈ counties app → c' ≠ name → Text.le c' name →
          Text.contains (Text.lower c') (Text.lower (a +:+ name +:+ b)) = false) →
       c = name
       ∧ county_snapshot (data app) c = county_snapshot (data app) name).
Proof.
  intros Hload Hname.
  pose proof (TextFacts.contains_lower_embedded name a b) as Hemb.
  unfold find_county_from_text.
  destruct (first_mentioned (counties app) _) as [c|] eqn:Hf.
  2:{ rewrite first_mentioned_none in Hf. rewrite (Hf _ Hname) in Hemb.
      discriminate. }
  destruct (first_mentioned_some _ _ _ Hf) as (pre & post & Hcs & Hc & Hpre).
  assert (Hin : c ∈ counties app).
  { rewrite Hcs. apply elem_of_app. right. left. }
  assert (Hle : Text.le c name).
  { destruct (load_inv _ _ Hload) as (_ & _ & _ & Hcounties & _).
    pose proof (sorted_counties_of (normalize raw)) as Hs.
    rewrite <- Hcounties, Hcs in Hs.
    apply StronglySorted_app in Hs as (_ & _ & Hs).
    apply StronglySorted_cons in Hs as [Hs _].
    rewrite Hcs in Hname.
    apply elem_of_app in Hname as [Hname|[->|Hname]%elem_of_cons].
    - rewrite Forall_forall in Hpre. rewrite (Hpre _ Hname) in Hemb.
      discriminate.
    - apply TextFacts.le_iff. by left.
    - rewrite Forall_forall in Hs. by apply Hs. }
  destruct (county_snapshot_hit (data app) c (load_names _ _ _ Hload Hin))
    as (r & _ & _ & Hr & _ & HC & _).
  exists c, r. repeat (split; [done|]).
  intros Hother. destruct (decide (c = name)) as [->|Hne]; [done|].
  rewrite (Hother c Hin Hne Hle) in Hc. discriminate.
Qed.

(** C4, as stated, fails: "Harrison" is in the county list of the sample
    table, but in a text that is exactly that name the matcher finds the
    earlier "Harris", whose row is another one. *)
Lemma find_prefers_earlier_county :
  ∃ app c,
    load Demo.table = Ok app
    ∧ "Harrison" ∈ counties app
    ∧ find_county_from_text (counties app) ("" +:+ "Harrison" +:+ "") = Some c
    ∧ county_snapshot (data app) c ≠ county_snapshot (data app) "Harrison".
Proof.
  eexists. exists "Harris".
  split; [vm_compute; reflexivity|].
  split; [vm_compute; do 2 right; left|].
  split; [vm_compute; reflexivity|].
  intros H. apply (f_equal (λ x, match x with Ok r => County r | _ => "" end)) in H.
  vm_compute in H. discriminate H.
Qed.

Lemma find_then_lookup_witness :
  ∃ app c r,
    load Demo.table = Ok app
    ∧ find_county_from_text (counties app)
        ("How risky is " +:+ "Harris" +:+ " County?") = Some c
    ∧ Text.le c "Harris"
    ∧ county_snapshot (data app) c = Ok r.
Proof.
  eexists.
  assert (Hin : "Harris" ∈ counties_of (normalize Demo.table)).
  { vm_compute. right. left. }
  destruct (find_then_lookup Demo.table _ "Harris" "How risky is " " County?"
              eq_refl Hin) as (c & r & Hf & _ & _ & Hle & Hr & _).
  exists c, r. split; [vm_compute; reflexivity|]. auto.
Defined.

(** ** Buckets of [pd.cut] *)

Module CutFacts.
Import Cut.

Ltac cases :=
  intros; unfold cut_value, searchsorted_left, bins, labels;
  match goal with H : num_val _ = Some ?p |- _ =>
    rewrite H; cbn [andb];
    destruct (bool_decide (p == 0)%Q) eqn:E0;
    [apply bool_decide_eq_true in E0 | apply bool_decide_eq_false in E0]
  end;
  repeat (rewrite filter_cons; case_decide);
  try rewrite filter_nil; case_bool_decide; cbn in *;
  first [reflexivity | exfalso; lra | exfalso; lia].

Lemma low c p :
  num_val c = Some p → (0 <= p)%Q → (p <= 3333 # 100)%Q →
  cut_value bins labels true c = Str "Low".
Proof. cases. Qed.

Lemma moderate c p :
  num_val c = Some p → (3333 # 100 < p)%Q → (p <= 6666 # 100)%Q →
  cut_value bins labels true c = Str "Moderate".
Proof. cases. Qed.

Lemma high c p :
  num_val c = Some p → (6666 # 100 < p)%Q → (p <= 100)%Q →
  cut_value bins labels true c = Str "High".
Proof. cases. Qed.

Lemma outside c p :
  num_val c = Some p → (p < 0)%Q ∨ (100 < p)%Q →
  cut_value bins labels true c = NaN.
Proof. intros ? [?|?]; cases. Qed.

Lemma missing c : num_val c = None → cut_value bins labels true c = NaN.
Proof. intros H. unfold cut_value. by rewrite H. Qed.

End CutFacts.

(** ** The category column *)

Lemma no_text_existsb {A} (f : A → cell) (l : list A) :
  Forall (λ r, is_str (f r) = false) l → existsb is_str (f <$> l) = false.
Proof.
  induction 1 as [|r l Hr _ IH]; [reflexivity|].
  rewrite fmap_cons. simpl. by rewrite Hr, IH.
Qed.

Lemma derive_category_ok (data : DataFrame) :
  "Risk_Category" ∉ columns data →
  "Risk_Percentile" ∈ columns data →
  Forall (λ r, is_str (col "Risk_Percentile" r) = false) (rows data) →
  derive_category data
  = Ok (mkFrame (columns data ++ ["Risk_Category"])
                (with_category <$> rows data)).
Proof.
  intros H1 H2 Hnum. unfold derive_category, cut_column.
  rewrite (bool_decide_eq_true_2 _ H1), (bool_decide_eq_true_2 _ H2).
  rewrite (no_text_existsb _ _ Hnum). simpl.
  by rewrite <- list_fmap_compose, zip_with_fmap_l, zip_with_diag.
Qed.

Lemma col_with_category (r : Row) :
  col "Risk_Category" (with_category r)
  = Cut.cut_value Cut.bins Cut.labels true (col "Risk_Percentile" r).
Proof. unfold col, with_category, set_cell. simpl. by rewrite lookup_insert_eq. Qed.

Lemma col_with_category_other (name : string) (r : Row) :
  name ≠ "Risk_Category" → col name (with_category r) = col name r.
Proof.
  intros Hne. unfold col, with_category, set_cell. simpl.
  by rewrite lookup_insert_ne.
Qed.

(** C1 (amended).  When the table has a percentile and no category, the
    category of each row is "Low" for a percentile in [0, 33.33], "Moderate"
    in (33.33, 66.66], "High" in (66.66, 100] and missing otherwise: a
    percentile of exactly 33.33 is "Low", and so is 0. *)
Theorem category_buckets (data : DataFrame) :
  "Risk_Category" ∉ columns data →
  "Risk_Percentile" ∈ columns data →
  Forall (λ r, is_str (col "Risk_Percentile" r) = false) (rows data) →
  ∃ data',
    derive_category data = Ok data'
    ∧ length (rows data') = length (rows data)
    ∧ ∀ i r, rows data !! i = Some r →
        ∃ r', rows data' !! i = Some r'
          ∧ County r' = County r
          ∧ col "Risk_Percentile" r' = col "Risk_Percentile" r
          ∧ (num_val (col "Risk_Percentile" r) = None →
               col "Risk_Category" r' = NaN)
          ∧ ∀ p, num_val (col "Risk_Percentile" r) = Some p →
              ((p == 3333 # 100)%Q → col "Risk_Category" r' = Str "Low")
              ∧ ((p == 0)%Q → col "Risk_Category" r' = Str "Low")
              ∧ ((0 <= p)%Q → (p <= 3333 # 100)%Q →
                   col "Risk_Category" r' = Str "Low")
              ∧ ((3333 # 100 < p)%Q → (p <= 6666 # 100)%Q →
                   col "Risk_Category" r' = Str "Moderate")
              ∧ ((6666 # 100 < p)%Q → (p <= 100)%Q →
                   col "Risk_Category" r' = Str "High")
              ∧ ((p < 0)%Q ∨ (100 < p)%Q → col "Risk_Category" r' = NaN).
Proof.
  intros H1 H2 Hnum. eexists. split; [by apply derive_category_ok|]. simpl.
  split; [by rewrite length_fmap|].
  intros i r Hi. exists (with_category r).
  split; [by rewrite list_lookup_fmap, Hi|].
  split; [done|].
  split; [by apply col_with_category_other|].
  rewrite col_with_category.
  split; [apply CutFacts.missing|].
  intros p Hp. repeat split.
  - intros E. apply (CutFacts.low _ p Hp); lra.
  - intros E. apply (CutFacts.low _ p Hp); lra.
  - apply (CutFacts.low _ p Hp).
  - apply (CutFacts.moderate _ p Hp).
  - apply (CutFacts.high _ p Hp).
  - apply (CutFacts.outside _ p Hp).
Qed.

(** C1, as stated, fails: the row of the sample table whose percentile is
    exactly 33.33 is put in "Low", not in "Moderate". *)
Lemma boundary_percentile_is_low :
  ∃ data' r,
    derive_category Demo.percentiles = Ok data'
    ∧ r ∈ rows data'
    ∧ col "Risk_Percentile" r = Float (3333 # 100)
    ∧ col "Risk_Category" r = Str "Low"
    ∧ col "Risk_Category" r ≠ Str "Moderate".
Proof.
  eexists. exists (with_category (Demo.scored "Bell" (Float (3333 # 100)))).
  split; [vm_compute; reflexivity|].
  split; [right; left|].
  split; [vm_compute; reflexivity|].
  split; [vm_compute; reflexivity|].
  vm_compute. discriminate.
Qed.

Lemma category_buckets_witness :
  ∃ data',
    derive_category Demo.percentiles = Ok data'
    ∧ (col "Risk_Category" <$> rows data')
      = [Str "Low"; Str "Low"; Str "Moderate"; Str "High"].
Proof.
  destruct (category_buckets Demo.percentiles) as (data' & Hd & _ & _).
  - by_decide.
  - by_decide.
  - repeat constructor.
  - exists data'. split; [exact Hd|].
    vm_compute in Hd. injection Hd as <-. vm_compute. reflexivity.
Defined.

(** ** Ranks *)

Module RankFacts.
Import Rank.

Lemma ofnat_le (n m : nat) : (n ≤ m)%nat → (ofnat n <= ofnat m)%Q.
Proof. intros H. unfold ofnat. rewrite <- Zle_Qle. lia. Qed.

Lemma ofnat_add (n m : nat) : (ofnat (n + m) == ofnat n + ofnat m)%Q.
Proof. unfold ofnat. by rewrite Nat2Z.inj_add, inject_Z_plus. Qed.

Lemma ofnat_nonneg (n : nat) : (0 <= ofnat n)%Q.
Proof. apply (ofnat_le 0 n). lia. Qed.

(** Values below [x] and values equal to [x] are distinct values. *)
Lemma count_lt_eq_le x l : (count_lt x l + count_eq x l ≤ length l)%nat.
Proof.
  unfold count_lt, count_eq. induction l as [|y l IH]; [done|].
  rewrite !filter_cons. repeat case_decide; simpl; try lia.
  exfalso. lra.
Qed.

Lemma count_eq_pos x l : x ∈ l → (1 ≤ count_eq x l)%nat.
Proof.
  unfold count_eq. induction 1 as [y l|y z l _ IH]; rewrite filter_cons.
  - rewrite decide_True; [simpl; lia | reflexivity].
  - case_decide; simpl; lia.
Qed.

(** Everything at or below a smaller value is below a larger one. *)
Lemma count_le_lt x y l :
  (y < x)%Q → (count_lt y l + count_eq y l ≤ count_lt x l)%nat.
Proof.
  intros Hxy. unfold count_lt, count_eq. induction l as [|z l IH]; [done|].
  rewrite !filter_cons. repeat case_decide; simpl; try lia; exfalso; lra.
Qed.

Lemma count_lt_compat x y l : (x == y)%Q → count_lt x l = count_lt y l.
Proof.
  intros E. unfold count_lt. f_equal. apply list_filter_iff.
  intros z. by rewrite E.
Qed.

Lemma count_eq_compat x y l : (x == y)%Q → count_eq x l = count_eq y l.
Proof.
  intros E. unfold count_eq. f_equal. apply list_filter_iff.
  intros z. by rewrite E.
Qed.

Lemma average_compat x y l : (x == y)%Q → average x l = average y l.
Proof.
  intros E. unfold average.
  by rewrite (count_lt_compat _ _ _ E), (count_eq_compat _ _ _ E).
Qed.

(** The half of [average], in the form [lra] reads. *)
Ltac halves := unfold average, Qdiv; change (/ 2)%Q with (1 # 2)%Q.

Lemma average_pos x l : x ∈ l → (0 < average x l)%Q.
Proof.
  intros Hx. halves.
  pose proof (ofnat_nonneg (count_lt x l)).
  pose proof (ofnat_le _ _ (count_eq_pos x l Hx)).
  change (ofnat 1) with 1%Q in *. lra.
Qed.

Lemma average_le_length x l : x ∈ l → (average x l <= ofnat (length l))%Q.
Proof.
  intros Hx. halves.
  pose proof (ofnat_le _ _ (count_lt_eq_le x l)) as Hn.
  rewrite ofnat_add in Hn.
  pose proof (ofnat_le _ _ (count_eq_pos x l Hx)).
  change (ofnat 1) with 1%Q in *. lra.
Qed.

Lemma average_mono x y l : (y < x)%Q → (average y l <= average x l)%Q.
Proof.
  intros Hxy. halves.
  pose proof (ofnat_le _ _ (count_le_lt x y l Hxy)) as Hn.
  rewrite ofnat_add in Hn.
  pose proof (ofnat_nonneg (count_eq y l)).
  pose proof (ofnat_nonneg (count_eq x l)). lra.
Qed.

Lemma length_pos (x : Q) (l : list Q) : x ∈ l → (0 < ofnat (length l))%Q.
Proof.
  intros Hx. destruct l as [|y l]; [by apply elem_of_nil in Hx|].
  unfold ofnat. change 0%Q with (inject_Z 0). rewrite <- Zlt_Qlt.
  simpl. lia.
Qed.

(** The percentile of a valid value lies in (0, 100]. *)
Lemma pct_range x l :
  x ∈ l →
  (0 < average x l / ofnat (length l) * 100)%Q
  ∧ (average x l / ofnat (length l) * 100 <= 100)%Q.
Proof.
  intros Hx.
  pose proof (length_pos x l Hx) as Hn.
  assert (0 < average x l / ofnat (length l))%Q as H1.
  { apply Qlt_shift_div_l; [done|]. pose proof (average_pos x l Hx). lra. }
  assert (average x l / ofnat (length l) <= 1)%Q as H2.
  { apply Qle_shift_div_r; [done|]. pose proof (average_le_length x l Hx). lra. }
  split; lra.
Qed.

Lemma pct_mono x y l :
  x ∈ l → (y < x)%Q →
  (average y l / ofnat (length l) * 100
     <= average x l / ofnat (length l) * 100)%Q.
Proof.
  intros Hx Hxy.
  pose proof (length_pos x l Hx) as Hn.
  assert (average y l / ofnat (length l)
            <= average x l / ofnat (length l))%Q as H.
  { unfold Qdiv. apply Qmult_le_compat_r; [by apply average_mono|].
    apply Qinv_le_0_compat. lra. }
  lra.
Qed.

End RankFacts.

(** ** The percentile column *)

Lemma zip_ranked (tmp : list Row) :
  zip (County <$> tmp)
      (Rank.times100
         <$> (Rank.rank_cell (omap num_val (col "Risk_Score" <$> tmp))
                <$> (col "Risk_Score" <$> tmp)))
  = ranked tmp.
Proof.
  unfold ranked, percentile_of.
  generalize (omap num_val (col "Risk_Score" <$> tmp)). intros valid.
  induction tmp as [|r tmp IH]; [reflexivity|].
  rewrite !fmap_cons. simpl. by rewrite IH.
Qed.

Lemma derive_percentile_ok (data : DataFrame) :
  "Risk_Percentile" ∉ columns data →
  "Risk_Score" ∈ columns data →
  Forall (λ r, is_str (col "Risk_Score" r) = false)
         (filter not_texas (rows data)) →
  derive_percentile data
  = Ok (mkFrame (columns data ++ ["Risk_Percentile"])
                (merge_left (rows data) (ranked (filter not_texas (rows data))))).
Proof.
  intros H1 H2 Hnum. unfold derive_percentile, Rank.rank_pct.
  rewrite (bool_decide_eq_true_2 _ H1), (bool_decide_eq_true_2 _ H2).
  rewrite (no_text_existsb _ _ Hnum). simpl. by rewrite zip_ranked.
Qed.

Lemma col_set_cell_eq (name : string) (c : cell) (r : Row) :
  col name (set_cell name c r) = c.
Proof. unfold col, set_cell. simpl. by rewrite lookup_insert_eq. Qed.

Lemma col_set_cell_ne (name name' : string) (c : cell) (r : Row) :
  name ≠ name' → col name' (set_cell name c r) = col name' r.
Proof. intros Hne. unfold col, set_cell. simpl. by rewrite lookup_insert_ne. Qed.

(** Where a row of the merged table comes from. *)
Lemma merged_row_inv (left : list Row) (r' : Row) :
  r' ∈ merge_left left (ranked (filter not_texas left)) →
  ∃ r, r ∈ left
       ∧ County r' = County r
       ∧ col "Risk_Score" r' = col "Risk_Score" r
       ∧ (¬ not_texas r → col "Risk_Percentile" r' = NaN)
       ∧ (not_texas r →
            ∃ r2, r2 ∈ filter not_texas left ∧ County r2 = County r
                  ∧ col "Risk_Percentile" r'
                    = percentile_of (filter not_texas left) r2).
Proof.
  unfold merge_left. intros (r & Hr' & Hr)%list_elem_of_bind.
  apply merge_row_inv in Hr' as (c & -> & Hc).
  exists r. split; [done|]. split; [done|].
  split; [by apply col_set_cell_ne|].
  rewrite col_set_cell_eq. split.
  - intros Htx. destruct Hc as [[-> _]|Hc]; [done|].
    apply list_elem_of_fmap in Hc as (r2 & [= E _] & Hr2).
    apply list_elem_of_filter in Hr2 as [Hnt _].
    exfalso. apply Htx. unfold not_texas in *. by rewrite E.
  - intros Hnt. destruct Hc as [[_ Hno]|Hc].
    + exfalso. apply (Hno (County r, percentile_of (filter not_texas left) r));
        [|done].
      apply list_elem_of_fmap. exists r. split; [done|].
      by apply list_elem_of_filter.
    + apply list_elem_of_fmap in Hc as (r2 & [= E ->] & Hr2). eauto.
Qed.

Lemma NoDup_fmap_eq {A B} (f : A → B) (l : list A) (x y : A) :
  NoDup (f <$> l) → x ∈ l → y ∈ l → f x = f y → x = y.
Proof.
  induction l as [|z l IH]; [by intros _ ?%elem_of_nil|].
  rewrite fmap_cons, NoDup_cons.
  intros [Hz Hl] [->|Hx]%elem_of_cons [->|Hy]%elem_of_cons E; auto.
  - exfalso. apply Hz. rewrite E. by apply list_elem_of_fmap_2.
  - exfalso. apply Hz. rewrite <- E. by apply list_elem_of_fmap_2.
Qed.

Lemma percentile_of_valid (tmp : list Row) (r : Row) (x : Q) :
  r ∈ tmp → num_val (col "Risk_Score" r) = Some x →
  x ∈ omap num_val (col "Risk_Score" <$> tmp)
  ∧ percentile_of tmp r
    = Float (Rank.average x (omap num_val (col "Risk_Score" <$> tmp))
             / Rank.ofnat (length (omap num_val (col "Risk_Score" <$> tmp)))
             * 100).
Proof.
  intros Hr Hx. split.
  - apply list_elem_of_omap. exists (col "Risk_Score" r).
    split; [by apply list_elem_of_fmap_2|done].
  - unfold percentile_of, Rank.rank_cell. by rewrite Hx.
Qed.

Lemma percentile_of_missing (tmp : list Row) (r : Row) :
  num_val (col "Risk_Score" r) = None → percentile_of tmp r = NaN.
Proof. intros Hx. unfold percentile_of, Rank.rank_cell. by rewrite Hx. Qed.

(** A row of the merged table is not statewide exactly when its source is. *)
Lemma merge_left_filter (left : list Row) (right : list (string * cell)) :
  filter not_texas (merge_left left right)
  = merge_left (filter not_texas left) right.
Proof.
  unfold merge_left. induction left as [|r l IH]; [done|].
  rewrite bind_cons, filter_app, IH, filter_cons.
  assert (Hall : ∀ r', r' ∈ merge_row right r → County r' = County r).
  { intros r' (c & -> & _)%merge_row_inv. done. }
  case_decide as Hr.
  - rewrite bind_cons. f_equal.
    induction (merge_row right r) as [|r' m IHm]; [done|].
    rewrite filter_cons_True.
    + f_equal. apply IHm. intros r'' Hr''. apply Hall. by right.
    + unfold not_texas in *. rewrite (Hall r'); [done|left].
  - replace (filter not_texas (merge_row right r)) with (@nil Row); [done|].
    symmetry. apply filter_empty_iff. intros r' Hr' Hnt. apply Hr.
    unfold not_texas in *. by rewrite <- (Hall r').
Qed.

Lemma filter_idem {A} (P : A → Prop) `{!∀ x, Decision (P x)} (l : list A) :
  filter P (filter P l) = filter P l.
Proof.
  induction l as [|x l IH]; [done|].
  rewrite filter_cons. case_decide; [|done].
  by rewrite filter_cons_True, IH.
Qed.

(** With unique county names, a county with a score gets the percentile of
    that score. *)
Lemma merged_row_percentile (left : list Row) (r' : Row) (x : Q) :
  NoDup (County <$> filter not_texas left) →
  r' ∈ merge_left left (ranked (filter not_texas left)) →
  not_texas r' →
  num_val (col "Risk_Score" r') = Some x →
  x ∈ county_scores left
  ∧ col "Risk_Percentile" r'
    = Float (Rank.average x (county_scores left)
             / Rank.ofnat (length (county_scores left)) * 100).
Proof.
  intros Hnd Hr' Hnt Hx.
  apply merged_row_inv in Hr' as (r & Hr & HC & Hs & _ & Hp).
  assert (Hntr : not_texas r) by (unfold not_texas in *; by rewrite <- HC).
  destruct (Hp Hntr) as (r2 & Hr2 & HC2 & ->).
  assert (r2 = r) as ->.
  { apply (NoDup_fmap_eq County (filter not_texas left)); auto.
    by apply list_elem_of_filter. }
  rewrite Hs in Hx. by apply percentile_of_valid.
Qed.

(** Without that assumption the percentile is still one of a county. *)
Lemma merged_row_range (left : list Row) (r' : Row) :
  r' ∈ merge_left left (ranked (filter not_texas left)) →
  not_texas r' →
  col "Risk_Percentile" r' = NaN
  ∨ ∃ p, col "Risk_Percentile" r' = Float p ∧ (0 < p)%Q ∧ (p <= 100)%Q.
Proof.
  intros Hr' Hnt.
  apply merged_row_inv in Hr' as (r & Hr & HC & Hs & _ & Hp).
  assert (Hntr : not_texas r) by (unfold not_texas in *; by rewrite <- HC).
  destruct (Hp Hntr) as (r2 & Hr2 & HC2 & ->).
  destruct (num_val (col "Risk_Score" r2)) as [x|] eqn:Hx.
  - right. destruct (percentile_of_valid _ _ _ Hr2 Hx) as [Hin ->].
    eexists. split; [reflexivity|]. by apply RankFacts.pct_range.
  - left. by apply percentile_of_missing.
Qed.

Lemma merged_row_statewide (left : list Row) (r' : Row) :
  r' ∈ merge_left left (ranked (filter not_texas left)) →
  ¬ not_texas r' → col "Risk_Percentile" r' = NaN.
Proof.
  intros Hr' Hnt.
  apply merged_row_inv in Hr' as (r & Hr & HC & Hs & Htx & _).
  apply Htx. unfold not_texas in *. by rewrite <- HC.
Qed.

(** C5 (amended).  On a table without a percentile, with a score and with
    unique county names, the derived percentile is monotonic in the score
    over the rows that are not statewide: a higher score has a percentile at least
    as high and equal scores have the same percentile.  A statewide row gets
    no percentile, and the counties get the percentiles they would get had
    the statewide rows not been in the table. *)
Theorem percentile_rank_monotonic (data : DataFrame) :
  "Risk_Percentile" ∉ columns data →
  "Risk_Score" ∈ columns data →
  Forall (λ r, is_str (col "Risk_Score" r) = false)
         (filter not_texas (rows data)) →
  NoDup (County <$> filter not_texas (rows data)) →
  ∃ data',
    derive_percentile data = Ok data'
    ∧ (∀ A B sa sb,
         A ∈ rows data' → B ∈ rows data' → not_texas A → not_texas B →
         num_val (col "Risk_Score" A) = Some sa →
         num_val (col "Risk_Score" B) = Some sb →
         ∃ pa pb,
           col "Risk_Percentile" A = Float pa
           ∧ col "Risk_Percentile" B = Float pb
           ∧ ((sb < sa)%Q → (pb <= pa)%Q)
           ∧ ((sa == sb)%Q → pa = pb))
    ∧ (∀ T, T ∈ rows data' → ¬ not_texas T → col "Risk_Percentile" T = NaN)
    ∧ derive_percentile (mkFrame (columns data) (filter not_texas (rows data)))
      = Ok (mkFrame (columns data') (filter not_texas (rows data'))).
Proof.
  intros H1 H2 Hnum Hnd. eexists. split; [by apply derive_percentile_ok|].
  simpl. split; [|split].
  - intros A B sa sb HA HB HntA HntB Hsa Hsb.
    destruct (merged_row_percentile _ _ _ Hnd HA HntA Hsa) as [Hina ->].
    destruct (merged_row_percentile _ _ _ Hnd HB HntB Hsb) as [Hinb ->].
    eexists _, _. split; [reflexivity|]. split; [reflexivity|]. split.
    + intros Hlt. by apply RankFacts.pct_mono.
    + intros Heq. by rewrite (RankFacts.average_compat _ _ _ Heq).
  - intros T HT Hnt. by apply (merged_row_statewide (rows data)).
  - rewrite derive_percentile_ok; simpl; rewrite ?filter_idem; try done.
    by rewrite merge_left_filter.
Qed.

Lemma percentile_rank_monotonic_witness :
  ∃ data',
    derive_percentile Demo.table = Ok data'
    ∧ (col "Risk_Percentile" <$> rows data')
      = [NaN; Float (600 # 6); Float (400 # 6); Float (200 # 6)]
    ∧ ∀ T, T ∈ rows data' → ¬ not_texas T → col "Risk_Percentile" T = NaN.
Proof.
  destruct (percentile_rank_monotonic Demo.table) as (data' & Hd & _ & Htx & _).
  - by_decide.
  - by_decide.
  - by_decide.
  - by_decide.
  - exists data'. split; [exact Hd|]. split; [|exact Htx].
    vm_compute in Hd. injection Hd as <-. vm_compute. reflexivity.
Defined.

(** C5, as stated, fails on a table in which a county name comes twice: the
    join on the name gives each of the two rows both percentiles, so a row
    with the higher score carries the lower percentile and two rows with
    the same score carry different percentiles. *)
Lemma repeated_name_breaks_rank_order :
  ("Risk_Percentile" ∉ columns Demo.repeated)
  ∧ "Risk_Score" ∈ columns Demo.repeated
  ∧ Forall (λ r, is_str (col "Risk_Score" r) = false)
           (filter not_texas (rows Demo.repeated))
  ∧ ∃ data' A B C pa pb,
      derive_percentile Demo.repeated = Ok data'
      ∧ A ∈ rows data' ∧ B ∈ rows data' ∧ C ∈ rows data'
      ∧ not_texas A ∧ not_texas B ∧ not_texas C
      ∧ col "Risk_Score" A = Float 80
      ∧ col "Risk_Score" B = Float 40
      ∧ col "Risk_Score" C = Float 40
      ∧ col "Risk_Percentile" A = Float pa
      ∧ col "Risk_Percentile" B = Float pb
      ∧ col "Risk_Percentile" C = Float pa
      ∧ (40 < 80)%Q ∧ (pa == 50)%Q ∧ (pb == 100)%Q ∧ ¬ (pb <= pa)%Q.
Proof.
  split; [by_decide|]. split; [by_decide|].
  split; [repeat (apply Forall_cons_2; [reflexivity|]); apply Forall_nil_2|].
  eexists _, _, _, _, _, _.
  split; [vm_compute; reflexivity|].
  split; [apply (list_elem_of_lookup_2 _ 1%nat); reflexivity|].
  split; [apply (list_elem_of_lookup_2 _ 3%nat); reflexivity|].
  split; [apply (list_elem_of_lookup_2 _ 2%nat); reflexivity|].
  split; [by_decide|]. split; [by_decide|]. split; [by_decide|].
  repeat (split; [vm_compute; reflexivity|]).
  vm_compute. intros H. apply H. reflexivity.
Qed.


Lemma merged_row_missing (left : list Row) (r' : Row) :
  NoDup (County <$> filter not_texas left) →
  r' ∈ merge_left left (ranked (filter not_texas left)) →
  not_texas r' →
  num_val (col "Risk_Score" r') = None →
  col "Risk_Percentile" r' = NaN.
Proof.
  intros Hnd Hr' Hnt Hx.
  apply merged_row_inv in Hr' as (r & Hr & HC & Hs & _ & Hp).
  assert (Hntr : not_texas r) by (unfold not_texas in *; by rewrite <- HC).
  destruct (Hp Hntr) as (r2 & Hr2 & HC2 & ->).
  assert (r2 = r) as ->.
  { apply (NoDup_fmap_eq County (filter not_texas left)); auto.
    by apply list_elem_of_filter. }
  rewrite Hs in Hx. by apply percentile_of_missing.
Qed.

Lemma merged_rows_no_text (left : list Row) :
  Forall (λ r, is_str (col "Risk_Percentile" r) = false)
         (merge_left left (ranked (filter not_texas left))).
Proof.
  apply Forall_forall. intros r Hr.
  destruct (decide (not_texas r)) as [Hnt|Hnt].
  - destruct (merged_row_range _ _ Hr Hnt) as [->|(p & -> & _)]; done.
  - by rewrite (merged_row_statewide _ _ Hr Hnt).
Qed.

(** C10 (amended).  After both derivations from the score, a row that is
    not statewide has a percentile that is missing or in (0, 100]; with
    unique county names it is in (0, 100] when the row has a score and
    missing when it has none.  A statewide row has a missing percentile and
    a missing category. *)
Theorem derived_percentile_range (data : DataFrame) :
  "Risk_Percentile" ∉ columns data →
  "Risk_Category" ∉ columns data →
  "Risk_Score" ∈ columns data →
  Forall (λ r, is_str (col "Risk_Score" r) = false)
         (filter not_texas (rows data)) →
  ∃ data1 data2,
    derive_percentile data = Ok data1
    ∧ derive_category data1 = Ok data2
    ∧ (∀ r, r ∈ rows data2 → not_texas r →
         col "Risk_Percentile" r = NaN
         ∨ ∃ p, col "Risk_Percentile" r = Float p ∧ (0 < p)%Q ∧ (p <= 100)%Q)
    ∧ (NoDup (County <$> filter not_texas (rows data)) →
       ∀ r, r ∈ rows data2 → not_texas r →
         match num_val (col "Risk_Score" r) with
         | Some _ =>
             ∃ p, col "Risk_Percentile" r = Float p ∧ (0 < p)%Q ∧ (p <= 100)%Q
         | None => col "Risk_Percentile" r = NaN
         end)
    ∧ (∀ r, r ∈ rows data2 → ¬ not_texas r →
         col "Risk_Percentile" r = NaN ∧ col "Risk_Category" r = NaN).
Proof.
  intros H1 H2 H3 Hnum. eexists _, _.
  split; [by apply derive_percentile_ok|].
  split.
  { apply derive_category_ok; simpl.
    - rewrite elem_of_app, list_elem_of_singleton. intros [?|?]; done.
    - rewrite elem_of_app, list_elem_of_singleton. by right.
    - apply merged_rows_no_text. }
  simpl. split; [|split].
  - intros r (r1 & -> & Hr1)%list_elem_of_fmap Hnt.
    rewrite col_with_category_other by done.
    by apply (merged_row_range (rows data)).
  - intros Hnd r (r1 & -> & Hr1)%list_elem_of_fmap Hnt.
    rewrite !col_with_category_other by done.
    destruct (num_val (col "Risk_Score" r1)) as [x|] eqn:Hx.
    + destruct (merged_row_percentile _ _ _ Hnd Hr1 Hnt Hx) as [Hin ->].
      eexists. split; [reflexivity|]. by apply RankFacts.pct_range.
    + by apply (merged_row_missing (rows data)).
  - intros r (r1 & -> & Hr1)%list_elem_of_fmap Hnt.
    rewrite col_with_category, col_with_category_other by done.
    by rewrite (merged_row_statewide (rows data) r1 Hr1 Hnt).
Qed.

(** C10, as stated, fails: in the sample table a county has no score, and
    its derived percentile is missing, so it is not in (0, 100]. *)
Lemma county_without_score_has_no_percentile :
  ∃ data1 data2 r,
    derive_percentile Demo.unscored = Ok data1
    ∧ derive_category data1 = Ok data2
    ∧ r ∈ rows data2
    ∧ not_texas r
    ∧ County r = "Loving"
    ∧ col "Risk_Percentile" r = NaN.
Proof.
  eexists _, _, _.
  split; [vm_compute; reflexivity|].
  split; [vm_compute; reflexivity|].
  split; [do 2 right; left|].
  split; [by_decide|].
  split; vm_compute; reflexivity.
Qed.

Lemma derived_percentile_range_witness :
  ∃ data1 data2,
    derive_percentile Demo.table = Ok data1
    ∧ derive_category data1 = Ok data2
    ∧ ((λ r, (County r, col "Risk_Category" r)) <$> rows data2)
      = [("Texas", NaN); ("Harris", Str "High"); ("Harrison", Str "High");
         (" Bell ", Str "Moderate")]
    ∧ ∀ r, r ∈ rows data2 → ¬ not_texas r →
        col "Risk_Percentile" r = NaN ∧ col "Risk_Category" r = NaN.
Proof.
  destruct (derived_percentile_range Demo.table)
    as (data1 & data2 & Hd1 & Hd2 & _ & _ & Htx).
  - by_decide.
  - by_decide.
  - by_decide.
  - by_decide.
  - exists data1, data2. split; [exact Hd1|]. split; [exact Hd2|].
    split; [|exact Htx].
    vm_compute in Hd1. injection Hd1 as <-.
    vm_compute in Hd2. injection Hd2 as <-. vm_compute. reflexivity.
Defined.

(** ** The explanation *)


Lemma py_test_numbers (op : order_test) (a b : cell) (x y : Q) :
  num_val a = Some x → num_val b = Some y →
  py_test op a b = Ok (test_num op x y).
Proof. destruct a, b; simpl; intros [= <-] [= <-]; reflexivity. Qed.

Lemma cell_fixed_number (grouped : bool) (d : nat) (c : cell) (x : Q) :
  num_val c = Some x → Fmt.cell_fixed grouped d c = Ok (Fmt.fixed grouped d x).
Proof. destruct c; simpl; intros [= <-]; reflexivity. Qed.

Lemma num_val_notna (c : cell) (x : Q) : num_val c = Some x → notna c = true.
Proof. by destruct c. Qed.



Lemma driver_rule_fires (row : Row) (name : string) (op : order_test)
    (threshold : Z) (label : string) :
  no_text row name →
  ∃ fires : bool,
    driver_rule row name op threshold label
    = Ok (if fires then [label] else [])
    ∧ (fires = true ↔
       rule_fires row name (λ x, test_num op x (inject_Z threshold) = true)).
Proof.
  intros Hnt. unfold driver_rule, rule_fires.
  destruct (cells row !! name) as [c|] eqn:Hc.
  - destruct (num_val c) as [x|] eqn:Hx.
    + rewrite (num_val_notna _ _ Hx), (py_test_numbers op c (Int threshold) x _ Hx eq_refl).
      simpl. exists (test_num op x (inject_Z threshold)). split; [done|].
      split; [eauto|]. intros (c' & x' & [= <-] & Hx' & Hp). congruence.
    + exists false. split.
      * destruct c; try discriminate; [done|]. by destruct (Hnt s).
      * split; [done|]. intros (c' & x' & [= <-] & Hx' & _). congruence.
  - exists false. split; [done|]. split; [done|].
    intros (c' & x' & Hc' & _). discriminate.
Qed.




(** ** The statistics block *)

Section Chatbot.
Variable str_float : Q → string.
Variable int_of_text : string → option Z.

(** The block never reads as the not-found message: it starts a line. *)
Lemma stats_response_not_not_found (county : string) (row : Row) :
  stats_response str_float int_of_text county row ≠ Ok not_found.
Proof.
  unfold stats_response.
  repeat match goal with
         | |- context [rbind ?m _] => destruct m; simpl; [|discriminate]
         end.
  intros [= H].
Qed.

Lemma stats_response_numeric (county : string) (row : Row) :
  numeric_field row "Diabetes" → numeric_field row "Obesity" →
  numeric_field row "Uninsured" → numeric_field row "Median_Income" →
  numeric_field row "Risk_Score" → numeric_field row "Risk_Rank" →
  ∃ s, stats_response str_float int_of_text county row = Ok s.
Proof.
  intros (c1 & x1 & H1 & _) (c2 & x2 & H2 & _) (c3 & x3 & H3 & _)
         (c4 & x4 & H4 & N4) (c5 & x5 & H5 & N5) (c6 & x6 & H6 & N6).
  unfold stats_response, getitem. rewrite H1, H2, H3, H4, H5, H6. simpl.
  rewrite (cell_fixed_number _ _ _ _ N4), (cell_fixed_number _ _ _ _ N5).
  simpl. destruct c6; try discriminate; simpl; eauto.
Qed.

(** The scan passes over rows whose name does not occur in the text. *)
Lemma chatbot_scan_skip (data : DataFrame) (msg : string)
    (pre rest : list string) :
  Forall (λ c, Text.contains (Text.lower c) msg = false) pre →
  chatbot_scan str_float int_of_text data msg (pre ++ rest)
  = chatbot_scan str_float int_of_text data msg rest.
Proof.
  induction 1 as [|c pre Hc _ IH]; [done|]. simpl. by rewrite Hc.
Qed.

Lemma chatbot_first_match (data : DataFrame) (message : string)
    (pre post : list Row) (t : Row) :
  rows data = pre ++ t :: post →
  Text.contains (Text.lower (County t)) (Text.lower message) = true →
  Forall (λ r, Text.contains (Text.lower (County r)) (Text.lower message)
               = false) pre →
  chatbot str_float int_of_text data message
  = stats_response str_float int_of_text (County t) t.
Proof.
  intros Hrows Ht Hpre. unfold chatbot.
  rewrite Hrows, fmap_app, fmap_cons, chatbot_scan_skip.
  2:{ rewrite Forall_fmap. exact Hpre. }
  simpl. rewrite Ht.
  replace (county_snapshot data (County t)) with (Ok t); [done|].
  unfold county_snapshot. rewrite Hrows, filter_app.
  replace (filter (λ r, County r = County t) pre) with (@nil Row).
  - by rewrite filter_cons_True.
  - symmetry. apply filter_empty_iff. intros r Hr E.
    rewrite Forall_forall in Hpre. rewrite <- E, (Hpre r Hr) in Ht.
    discriminate.
Qed.

End Chatbot.

(** X19.  The scan of the responder goes through all the rows in table
    order, the statewide row included: when the lower-cased text contains
    "texas" and no name of an earlier row, the answer is whatever the
    statistics block of the statewide row evaluates to, which is never the
    not-found message and is a block of text when the six fields of that
    row hold numbers; on the same text the matcher, which reads the county
    list, never returns that row. *)
Theorem responder_selects_statewide_row
    (str_float : Q → string) (int_of_text : string → option Z)
    (raw : DataFrame) (app : App) (message : string)
    (pre post : list Row) (t : Row) :
  load raw = Ok app →
  rows (data app) = pre ++ t :: post →
  Text.lower (County t) = "texas" →
  Text.contains "texas" (Text.lower message) = true →
  Forall (λ r, Text.contains (Text.lower (County r)) (Text.lower message)
               = false) pre →
  chatbot str_float int_of_text (data app) message
  = stats_response str_float int_of_text (County t) t
  ∧ chatbot str_float int_of_text (data app) message ≠ Ok not_found
  ∧ find_county_from_text (counties app) message ≠ Some (County t)
  ∧ (∀ c, find_county_from_text (counties app) message = Some c →
          Text.lower c ≠ "texas")
  ∧ (numeric_field t "Diabetes" → numeric_field t "Obesity" →
     numeric_field t "Uninsured" → numeric_field t "Median_Income" →
     numeric_field t "Risk_Score" → numeric_field t "Risk_Rank" →
     ∃ s, chatbot str_float int_of_text (data app) message = Ok s
          ∧ s ≠ not_found).
Proof.
  intros Hload Hrows Htx Hmsg Hpre.
  assert (Hsel : chatbot str_float int_of_text (data app) message
                 = stats_response str_float int_of_text (County t) t).
  { apply (chatbot_first_match _ _ _ _ pre post); [done| |done].
    by rewrite Htx. }
  assert (Hfind : ∀ c, find_county_from_text (counties app) message = Some c →
                       Text.lower c ≠ "texas").
  { intros c Hc. unfold find_county_from_text in Hc.
    apply first_mentioned_some in Hc as (p & q & Hcs & _ & _).
    destruct (load_inv _ _ Hload) as (_ & _ & _ & Hcounties & _).
    assert (Hin : c ∈ counties app).
    { rewrite Hcs. apply elem_of_app. right. left. }
    rewrite Hcounties in Hin. by apply elem_of_counties_of in Hin as [? _]. }
  split; [exact Hsel|].
  split; [rewrite Hsel; apply stats_response_not_not_found|].
  split; [intros Hc; by apply Hfind in Hc|].
  split; [exact Hfind|].
  intros N1 N2 N3 N4 N5 N6.
  destruct (stats_response_numeric str_float int_of_text (County t) t
              N1 N2 N3 N4 N5 N6) as [s Hs].
  exists s. split; [by rewrite Hsel|].
  intros ->. by apply (stats_response_not_not_found str_float int_of_text (County t) t).
Qed.

(** C9.  On the sample table, whose statewide row has no rank, the
    responder returns no statistics for a text that names Texas and no
    county: the scan selects the statewide row, and formatting it raises
    [ValueError] at [int(row['Risk_Rank'])], for every way of printing a
    floating value and of reading an integer from text.  It is the same
    unguarded conversion that raises on a county row without a rank. *)
Lemma statewide_row_without_rank_raises :
  ∃ app,
    load Demo.table = Ok app
    ∧ Text.contains "texas" (Text.lower "How is Texas doing?") = true
    ∧ ∀ str_float int_of_text,
        chatbot str_float int_of_text (data app) "How is Texas doing?"
        = Raise ValueError.
Proof.
  eexists. split; [vm_compute; reflexivity|]. split; [reflexivity|].
  intros str_float int_of_text. vm_compute. reflexivity.
Qed.

Lemma responder_selects_statewide_row_witness :
  ∃ app s,
    load Demo.benchmarked = Ok app
    ∧ chatbot Demo.str_float Demo.int_of_text (data app) "How is Texas doing?"
      = Ok s
    ∧ s ≠ not_found
    ∧ find_county_from_text (counties app) "How is Texas doing?" = None.
Proof.
  assert (Hload : ∃ app t post,
            load Demo.benchmarked = Ok app
            ∧ rows (data app) = [] ++ t :: post
            ∧ t = with_category
                    (set_cell "Risk_Percentile" NaN Demo.texas_filled)).
  { eexists _, _, _. split; [vm_compute; reflexivity|].
    split; vm_compute; reflexivity. }
  destruct Hload as (app & t & post & Hload & Hrows & Ht).
  destruct (responder_selects_statewide_row Demo.str_float Demo.int_of_text
              Demo.benchmarked app "How is Texas doing?" _ _ _ Hload Hrows)
    as (_ & _ & _ & _ & Hnum);
    [by rewrite Ht | reflexivity | constructor |].
  destruct Hnum as (s & Hs & Hne);
    [rewrite Ht; eexists _, _; split; vm_compute; reflexivity..|].
  exists app, s. split; [exact Hload|]. split; [exact Hs|].
  split; [exact Hne|].
  vm_compute in Hload. injection Hload as <-. vm_compute. reflexivity.
Defined.

(** C2: the statistics block does not guard its fields.  On the sample
    table the county without a rank makes the responder raise, where the
    sidebar, reading the same row, shows "N/A". *)
Theorem stats_formatting_raises_on_missing_rank :
  ∃ app row,
    load Demo.unscored = Ok app
    ∧ county_snapshot (data app) "Loving" = Ok row
    ∧ col "Risk_Rank" row = NaN
    ∧ (∀ str_float int_of_text,
         chatbot str_float int_of_text (data app) "Loving" = Raise ValueError)
    ∧ (∀ int_of_text, sidebar_rank int_of_text row = Ok "N/A").
Proof.
  eexists _, _.
  split; [vm_compute; reflexivity|].
  split; [vm_compute; reflexivity|].
  split; [vm_compute; reflexivity|].
  split; intros; vm_compute; reflexivity.
Qed.

(** * Further properties of the program *)

(** ** The matcher *)

Lemma first_mentioned_split (pre post : list string) (msg c : string) :
  Text.contains (Text.lower c) msg = true →
  Forall (λ c', Text.contains (Text.lower c') msg = false) pre →
  first_mentioned (pre ++ c :: post) msg = Some c.
Proof.
  intros Hc. induction 1 as [|x pre Hx _ IH]; simpl.
  - by rewrite Hc.
  - by rewrite Hx.
Qed.

(** X1.  The matcher returns the first county of the list, in its order,
    whose lower-cased name occurs in the lower-cased text, and nothing
    exactly when no county of the list occurs in it. *)
Theorem find_county_first_match (cs : list string) (user_text : string) :
  (∀ c, find_county_from_text cs user_text = Some c ↔
        ∃ pre post,
          cs = pre ++ c :: post
          ∧ Text.contains (Text.lower c) (Text.lower user_text) = true
          ∧ Forall (λ c', Text.contains (Text.lower c') (Text.lower user_text)
                          = false) pre)
  ∧ (find_county_from_text cs user_text = None ↔
     ∀ c, c ∈ cs → Text.contains (Text.lower c) (Text.lower user_text) = false).
Proof.
  unfold find_county_from_text. split.
  - intros c. split; [apply first_mentioned_some|].
    intros (pre & post & -> & Hc & Hpre). by apply first_mentioned_split.
  - apply first_mentioned_none.
Qed.

(** X2.  A county of the list mentioned in any letter case is not missed:
    a text that embeds a word equal to the name up to case gets a match. *)
Theorem find_county_ignores_case (cs : list string) (c v a b : string) :
  c ∈ cs →
  Text.lower v = Text.lower c →
  ∃ c', find_county_from_text cs (a +:+ v +:+ b) = Some c'
        ∧ c' ∈ cs
        ∧ Text.contains (Text.lower c') (Text.lower (a +:+ v +:+ b)) = true.
Proof.
  intros Hc Hv.
  assert (Hocc : Text.contains (Text.lower c) (Text.lower (a +:+ v +:+ b)) = true).
  { rewrite <- Hv. apply TextFacts.contains_lower_embedded. }
  unfold find_county_from_text.
  destruct (first_mentioned cs _) as [c'|] eqn:Hf.
  - exists c'. split; [done|].
    apply first_mentioned_some in Hf as (pre & post & -> & Hc' & _).
    split; [|done]. apply elem_of_app. right. left.
  - rewrite first_mentioned_none in Hf. rewrite (Hf c Hc) in Hocc. discriminate.
Qed.

Lemma find_county_ignores_case_witness :
  ∃ c', find_county_from_text ["Bell"; "Harris"] ("is " +:+ "HARRIS" +:+ " risky?")
        = Some c'
        ∧ c' = "Harris".
Proof.
  destruct (find_county_ignores_case ["Bell"; "Harris"] "Harris" "HARRIS"
              "is " " risky?") as (c' & Hf & _ & _).
  - by_decide.
  - reflexivity.
  - exists c'. split; [exact Hf|]. vm_compute in Hf. by injection Hf as <-.
Defined.

Lemma contains_empty (s : string) : Text.contains "" s = true.
Proof. by destruct s. Qed.

Lemma le_empty (s : string) : Text.le s "" → s = "".
Proof.
  intros [H|H]%TextFacts.le_iff; [done|].
  destruct s; discriminate H.
Qed.

(** X3.  A blank county name matches every message: when a row's name is
    only white space, the trimmed name is the empty text, which sorts
    first and occurs in any text, so the matcher returns it whatever the
    message says. *)
Theorem blank_county_matches_everything (raw : DataFrame) (r : Row)
    (user_text : string) :
  r ∈ rows raw →
  Text.strip (County r) = "" →
  find_county_from_text (counties_of (normalize raw)) user_text = Some "".
Proof.
  intros Hr Hblank.
  assert (Hin : "" ∈ counties_of (normalize raw)).
  { apply elem_of_counties_of. split; [done|]. simpl.
    rewrite <- list_fmap_compose. apply list_elem_of_fmap. exists r.
    by rewrite <- Hblank. }
  pose proof (sorted_counties_of (normalize raw)) as Hs.
  unfold find_county_from_text.
  destruct (counties_of (normalize raw)) as [|h rest]; [by apply elem_of_nil in Hin|].
  assert (h = "") as ->.
  { apply elem_of_cons in Hin as [->|Hin]; [done|].
    apply StronglySorted_cons in Hs as [Hs _].
    rewrite Forall_forall in Hs. by apply le_empty, Hs. }
  simpl. by rewrite contains_empty.
Qed.

Lemma blank_county_matches_everything_witness :
  find_county_from_text
    (counties_of (normalize (mkFrame ["County"] [mkRow "Harris" ∅; mkRow "   " ∅])))
    "How risky is Harris County?"
  = Some "".
Proof.
  apply (blank_county_matches_everything _ (mkRow "   " ∅)).
  - simpl. right. left.
  - reflexivity.
Defined.

(** ** The loader *)

(** X4.  Each derivation changes nothing when run on its own result: a
    column that is there, from the source or from a first run, is never
    computed again. *)
Theorem derivations_idempotent (data data' : DataFrame) :
  (derive_percentile data = Ok data' → derive_percentile data' = Ok data')
  ∧ (derive_category data = Ok data' → derive_category data' = Ok data').
Proof.
  split.
  - unfold derive_percentile at 1.
    destruct (bool_decide ("Risk_Percentile" ∉ columns data)
              && bool_decide ("Risk_Score" ∈ columns data)) eqn:E.
    + destruct (Rank.rank_pct _) as [ranks|e]; simpl; [|discriminate].
      intros [= <-]. unfold derive_percentile. simpl.
      rewrite bool_decide_eq_false_2; [done|].
      intros Hn. apply Hn, elem_of_app. right. left.
    + intros [= <-]. unfold derive_percentile. by rewrite E.
  - unfold derive_category at 1.
    destruct (bool_decide ("Risk_Category" ∉ columns data)
              && bool_decide ("Risk_Percentile" ∈ columns data)) eqn:E.
    + destruct (cut_column _) as [cats|e]; simpl; [|discriminate].
      intros [= <-]. unfold derive_category. simpl.
      rewrite bool_decide_eq_false_2; [done|].
      intros Hn. apply Hn, elem_of_app. right. left.
    + intros [= <-]. unfold derive_category. by rewrite E.
Qed.

Lemma derivations_idempotent_witness :
  ∃ data1 data2,
    derive_percentile Demo.table = Ok data1
    ∧ derive_percentile data1 = Ok data1
    ∧ derive_category data1 = Ok data2
    ∧ derive_category data2 = Ok data2.
Proof.
  assert (H1 : ∃ data1, derive_percentile Demo.table = Ok data1).
  { eexists. vm_compute. reflexivity. }
  destruct H1 as [data1 H1].
  assert (H2 : ∃ data2, derive_category data1 = Ok data2).
  { vm_compute in H1. injection H1 as <-. eexists. vm_compute. reflexivity. }
  destruct H2 as [data2 H2].
  exists data1, data2.
  split; [exact H1|].
  split; [exact (proj1 (derivations_idempotent _ _) H1)|].
  split; [exact H2|].
  exact (proj2 (derivations_idempotent _ _) H2).
Defined.



Lemma filter_key_unique {A} (f : A → string) (g : A → cell)
    (l : list A) (x : A) :
  NoDup (f <$> l) → x ∈ l →
  filter (λ kv : string * cell, kv.1 = f x) ((λ y, (f y, g y)) <$> l)
  = [(f x, g x)].
Proof.
  induction l as [|y l IH]; [by intros _ ?%elem_of_nil|].
  rewrite !fmap_cons, NoDup_cons. intros [Hy Hl] Hx.
  rewrite filter_cons. simpl. destruct (decide (f y = f x)) as [E|E].
  - assert (x = y) as ->.
    { apply elem_of_cons in Hx as [->|Hx]; [done|].
      exfalso. apply Hy. rewrite E. by apply list_elem_of_fmap_2. }
    f_equal. apply filter_empty_iff. intros kv (z & -> & Hz)%list_elem_of_fmap E'.
    simpl in E'. apply Hy. rewrite <- E'. by apply list_elem_of_fmap_2.
  - apply IH; [done|]. apply elem_of_cons in Hx as [->|Hx]; [done|done].
Qed.

Lemma merge_row_statewide (tmp : list Row) (r : Row) :
  Forall not_texas tmp → ¬ not_texas r →
  merge_row (ranked tmp) r = [set_cell "Risk_Percentile" NaN r].
Proof.
  intros Htmp Hr. unfold merge_row.
  replace (filter _ (ranked tmp)) with (@nil (string * cell)); [done|].
  symmetry. apply filter_empty_iff.
  intros kv (r2 & -> & Hr2)%list_elem_of_fmap E. simpl in E.
  rewrite Forall_forall in Htmp. apply Hr. unfold not_texas in *.
  rewrite <- E. by apply Htmp.
Qed.

Lemma merge_row_county (tmp : list Row) (r : Row) :
  NoDup (County <$> tmp) → r ∈ tmp →
  merge_row (ranked tmp) r
  = [set_cell "Risk_Percentile" (percentile_of tmp r) r].
Proof.
  intros Hnd Hr. unfold merge_row, ranked.
  by rewrite (filter_key_unique County (percentile_of tmp) tmp r Hnd Hr).
Qed.

Lemma not_texas_filter (l : list Row) : Forall not_texas (filter not_texas l).
Proof. apply Forall_forall. by intros r [? _]%list_elem_of_filter. Qed.

Lemma merge_left_unique (left : list Row) :
  NoDup (County <$> filter not_texas left) →
  merge_left left (ranked (filter not_texas left))
  = with_percentile (filter not_texas left) <$> left.
Proof.
  intros Hnd. unfold merge_left.
  assert (Hall : ∀ r, r ∈ left →
            merge_row (ranked (filter not_texas left)) r
            = [with_percentile (filter not_texas left) r]).
  { intros r Hr. unfold with_percentile. case_decide as Hnt.
    - apply merge_row_county; [done|]. by apply list_elem_of_filter.
    - apply merge_row_statewide; [apply not_texas_filter|done]. }
  revert Hall. generalize (ranked (filter not_texas left)).
  generalize (with_percentile (filter not_texas left)).
  clear Hnd. intros h right.
  induction left as [|r l IH]; intros Hall; [done|].
  rewrite bind_cons, fmap_cons, Hall by left. simpl. f_equal.
  apply IH. intros r' Hr'. apply Hall. by right.
Qed.

Lemma merge_row_length (right : list (string * cell)) (r : Row) :
  (1 ≤ length (merge_row right r))%nat.
Proof.
  unfold merge_row. destruct (filter _ right); simpl; [lia|].
  rewrite length_fmap. simpl. lia.
Qed.

(** X6.  The percentile derivation loses no row, and with unique county
    names it adds none either: the table keeps its rows in their order,
    each with its name and its other fields, the percentile being that of
    the row's own score for a county and missing for a statewide row. *)
Theorem derive_percentile_keeps_rows (data : DataFrame) :
  "Risk_Percentile" ∉ columns data →
  "Risk_Score" ∈ columns data →
  Forall (λ r, is_str (col "Risk_Score" r) = false)
         (filter not_texas (rows data)) →
  ∃ data',
    derive_percentile data = Ok data'
    ∧ (length (rows data) ≤ length (rows data'))%nat
    ∧ (NoDup (County <$> filter not_texas (rows data)) →
       (County <$> rows data') = (County <$> rows data)
       ∧ (∀ name, name ≠ "Risk_Percentile" →
            (col name <$> rows data') = (col name <$> rows data))
       ∧ (col "Risk_Percentile" <$> rows data')
         = ((λ r, if decide (not_texas r)
                  then percentile_of (filter not_texas (rows data)) r
                  else NaN) <$> rows data)).
Proof.
  intros H1 H2 Hnum. eexists. split; [by apply derive_percentile_ok|]. simpl.
  split.
  - unfold merge_left. generalize (ranked (filter not_texas (rows data))).
    intros right. clear Hnum. induction (rows data) as [|r l IH]; [done|].
    rewrite bind_cons, length_app.
    change (length (r :: l)) with (S (length l)).
    pose proof (merge_row_length right r). lia.
  - intros Hnd. rewrite (merge_left_unique _ Hnd), <- !list_fmap_compose.
    split; [done|]. split.
    + intros name Hne. rewrite <- list_fmap_compose.
      apply list_fmap_ext. intros i r _. simpl.
      unfold with_percentile. by rewrite col_set_cell_ne.
    + apply list_fmap_ext. intros i r _. simpl.
      unfold with_percentile. by rewrite col_set_cell_eq.
Qed.

Lemma derive_percentile_keeps_rows_witness :
  ∃ data',
    derive_percentile Demo.table = Ok data'
    ∧ (County <$> rows data') = ["Texas"; "Harris"; "Harrison"; " Bell "].
Proof.
  destruct (derive_percentile_keeps_rows Demo.table) as (data' & Hd & _ & Hk);
    [by_decide..|].
  exists data'. split; [exact Hd|].
  destruct Hk as (Hnames & _); [by_decide|]. rewrite Hnames. reflexivity.
Defined.

(** ** The responder *)

Lemma exists_first {A} (p : A → bool) (l : list A) (x : A) :
  x ∈ l → p x = true →
  ∃ pre t post, l = pre ++ t :: post ∧ p t = true
                ∧ Forall (λ y, p y = false) pre.
Proof.
  induction l as [|y l IH]; [by intros ?%elem_of_nil|].
  intros Hx Hp. destruct (p y) eqn:Hy.
  - exists [], y, l. auto.
  - apply elem_of_cons in Hx as [->|Hx]; [congruence|].
    destruct (IH Hx Hp) as (pre & t & post & -> & Ht & Hpre).
    exists (y :: pre), t, post. auto.
Qed.

Lemma append_empty_r (s : string) : s +:+ "" = s.
Proof.
  induction s as [|a s IH]; [done|].
  change (String a (s +:+ "") = String a s). by rewrite IH.
Qed.

Lemma contains_refl (s : string) : Text.contains s s = true.
Proof.
  apply TextFacts.contains_spec. exists "", "".
  change ("" +:+ s +:+ "") with (s +:+ ""). by rewrite append_empty_r.
Qed.

Section ResponderFacts.
Variable str_float : Q → string.
Variable int_of_text : string → option Z.

(** X7.  The responder gives the not-found message exactly when no row of
    the table, the statewide row included, has its lower-cased name in the
    lower-cased message. *)
Theorem chatbot_not_found_iff (data : DataFrame) (message : string) :
  chatbot str_float int_of_text data message = Ok not_found ↔
  ∀ r, r ∈ rows data →
       Text.contains (Text.lower (County r)) (Text.lower message) = false.
Proof.
  split.
  - intros Hnf r Hr.
    destruct (Text.contains (Text.lower (County r)) (Text.lower message)) eqn:E;
      [|done].
    destruct (exists_first
                (λ r, Text.contains (Text.lower (County r)) (Text.lower message))
                _ _ Hr E) as (pre & t & post & Hrows & Ht & Hpre).
    rewrite (chatbot_first_match _ _ _ _ pre post t Hrows Ht Hpre) in Hnf.
    by apply stats_response_not_not_found in Hnf.
  - intros Hno. unfold chatbot.
    rewrite <- (app_nil_r (County <$> rows data)), chatbot_scan_skip; [done|].
    rewrite Forall_fmap. apply Forall_forall. exact Hno.
Qed.

(** X8.  Asked about a name of the table, as the chat page does with the
    county it found, the responder never gives the not-found message: it
    answers with the first row, in table order, whose lower-cased name
    occurs in the lower-cased name asked.  That is the row of the name
    itself when no earlier row's name occurs in it, and otherwise another
    row. *)
Theorem chatbot_on_table_name (data : DataFrame) (t : Row) :
  t ∈ rows data →
  chatbot str_float int_of_text data (County t) ≠ Ok not_found
  ∧ (∃ pre u post,
       rows data = pre ++ u :: post
       ∧ Text.contains (Text.lower (County u)) (Text.lower (County t)) = true
       ∧ Forall (λ r, Text.contains (Text.lower (County r))
                        (Text.lower (County t)) = false) pre
       ∧ chatbot str_float int_of_text data (County t)
         = stats_response str_float int_of_text (County u) u)
  ∧ (∀ pre post,
       rows data = pre ++ t :: post →
       Forall (λ r, Text.contains (Text.lower (County r))
                      (Text.lower (County t)) = false) pre →
       chatbot str_float int_of_text data (County t)
       = stats_response str_float int_of_text (County t) t).
Proof.
  intros Ht.
  destruct (exists_first
              (λ r, Text.contains (Text.lower (County r)) (Text.lower (County t)))
              _ _ Ht (contains_refl _)) as (pre & u & post & Hrows & Hu & Hpre).
  pose proof (chatbot_first_match str_float int_of_text _ _ pre post u
                Hrows Hu Hpre) as Hsel.
  split; [rewrite Hsel; apply stats_response_not_not_found|].
  split; [by exists pre, u, post|].
  intros pre' post' Hrows' Hpre'.
  apply (chatbot_first_match _ _ _ _ pre' post'); [done| |done].
  apply contains_refl.
Qed.

(** X9.  On a row that has the six columns and whose numbers are finite,
    the statistics block is returned exactly when the income and the score
    are not text and the rank converts to an integer; in every other case
    the call raises ValueError, in particular whenever the rank is missing.
    (An infinite rank, on which [int] raises [OverflowError], is not a cell
    of the model and is not covered.) *)
Theorem stats_response_outcome (county : string) (row : Row)
    (diabetes obesity uninsured income score rank : cell) :
  cells row !! "Diabetes" = Some diabetes →
  cells row !! "Obesity" = Some obesity →
  cells row !! "Uninsured" = Some uninsured →
  cells row !! "Median_Income" = Some income →
  cells row !! "Risk_Score" = Some score →
  cells row !! "Risk_Rank" = Some rank →
  ((∃ s, stats_response str_float int_of_text county row = Ok s) ↔
   is_str income = false ∧ is_str score = false
   ∧ ∃ z, to_int int_of_text rank = Ok z)
  ∧ ((∀ s, stats_response str_float int_of_text county row ≠ Ok s) →
     stats_response str_float int_of_text county row = Raise ValueError)
  ∧ (rank = NaN →
     stats_response str_float int_of_text county row = Raise ValueError).
Proof.
  intros H1 H2 H3 H4 H5 H6.
  unfold stats_response, getitem. rewrite H1, H2, H3, H4, H5, H6. simpl.
  destruct income as [| | |si], score as [| | |ss]; simpl;
    try (split; [split; [intros [? ?]; congruence
                        | intros (? & ? & ? & ?); simpl in *; congruence]
                | split; [done|done]]).
  all: destruct rank as [|zr|qr|sr]; simpl;
    try destruct (int_of_text sr) as [zi|]; simpl.
  all: split;
    [split; [intros [? ?]; first [congruence | repeat split; eauto]
            | intros (? & ? & ? & ?); first [congruence | eauto]]
    | split; [intros Hno; first [reflexivity | exfalso; eapply Hno; reflexivity]
             | intros; first [reflexivity | congruence]]].
Qed.

End ResponderFacts.

Lemma chatbot_on_table_name_witness :
  chatbot Demo.str_float Demo.int_of_text Demo.table "Harrison" ≠ Ok not_found
  ∧ ∃ u, u ∈ rows Demo.table
         ∧ chatbot Demo.str_float Demo.int_of_text Demo.table "Harrison"
           = stats_response Demo.str_float Demo.int_of_text (County u) u.
Proof.
  destruct (chatbot_on_table_name Demo.str_float Demo.int_of_text Demo.table
              Demo.harrison)
    as (Hnf & (pre & u & post & Hrows & _ & _ & Hsel) & _).
  - simpl. do 2 right. left.
  - split; [exact Hnf|]. exists u. split; [|exact Hsel].
    rewrite Hrows. apply elem_of_app. right. left.
Defined.

Lemma stats_response_outcome_witness :
  stats_response Demo.str_float Demo.int_of_text "Texas" Demo.texas
  = Raise ValueError.
Proof.
  refine (proj2 (proj2 (stats_response_outcome Demo.str_float Demo.int_of_text
            "Texas" Demo.texas (Float 11) NaN NaN NaN NaN NaN
            eq_refl eq_refl eq_refl eq_refl eq_refl eq_refl)) eq_refl).
Defined.

(** ** The explanation, further *)

Lemma driver_rule_outcome (row : Row) (name : string) (op : order_test)
    (threshold : Z) (label : string) :
  (∃ ds, driver_rule row name op threshold label = Ok ds)
  ∨ (driver_rule row name op threshold label = Raise TypeError
     ∧ ∃ s, cells row !! name = Some (Str s)).
Proof.
  unfold driver_rule. destruct (cells row !! name) as [[| | |s]|]; simpl; eauto.
Qed.

Lemma driver_rule_text (row : Row) (name : string) (op : order_test)
    (threshold : Z) (label s : string) :
  cells row !! name = Some (Str s) →
  driver_rule row name op threshold label = Raise TypeError.
Proof. intros H. unfold driver_rule. by rewrite H. Qed.

Lemma benchmark_part_ok (texas_diabetes : option cell) (row : Row) :
  no_text row "Diabetes" →
  (∀ s, texas_diabetes ≠ Some (Str s)) →
  ∃ p, benchmark_part texas_diabetes row = Ok p.
Proof.
  intros Hd Ht. unfold benchmark_part.
  destruct texas_diabetes as [t|]; [|eauto].
  destruct (cells row !! "Diabetes") as [d|] eqn:E; [|eauto].
  destruct d as [| | |s]; [eauto| | |by destruct (Hd s)];
    (destruct t as [| | |s]; [| | |by destruct (Ht s)]); simpl;
    repeat match goal with |- context [if ?b then _ else _] => destruct b end;
    eauto.
Qed.

Lemma drivers_ok (row : Row) :
  no_text row "Obesity" → no_text row "Uninsured" →
  no_text row "Median_Income" →
  ∃ ds, drivers row = Ok ds.
Proof.
  intros H1 H2 H3.
  destruct (driver_rule_fires row "Obesity" OpGe 35 "higher obesity" H1)
    as (b1 & E1 & _).
  destruct (driver_rule_fires row "Uninsured" OpGe 15 "higher uninsured rate" H2)
    as (b2 & E2 & _).
  destruct (driver_rule_fires row "Median_Income" OpLe 60000
              "lower median income" H3) as (b3 & E3 & _).
  unfold drivers. rewrite E1, E2, E3. simpl. eauto.
Qed.

(** X10.  The explanation is returned, never an exception, for every record
    whose diabetes, obesity, uninsured and income fields hold no text, the
    benchmark holding none either; fields may be absent or missing. *)
Theorem risk_explanation_total (str_float : Q → string)
    (texas_diabetes : option cell) (row : Row) :
  no_text row "Diabetes" → no_text row "Obesity" →
  no_text row "Uninsured" → no_text row "Median_Income" →
  (∀ s, texas_diabetes ≠ Some (Str s)) →
  ∃ s, risk_explanation str_float texas_diabetes row = Ok s.
Proof.
  intros H0 H1 H2 H3 Ht.
  destruct (benchmark_part_ok texas_diabetes row H0 Ht) as [p Hp].
  destruct (drivers_ok row H1 H2 H3) as (ds & Hd).
  unfold risk_explanation, explanation_parts. rewrite Hp, Hd. simpl. eauto.
Qed.

Lemma risk_explanation_total_witness :
  ∃ s, risk_explanation Demo.str_float (Some (Float 11)) Demo.loving = Ok s.
Proof.
  apply risk_explanation_total;
    intros s Hs; vm_compute in Hs; discriminate Hs.
Defined.

(** X11.  Text where a number is expected makes the explanation raise:
    TypeError for a text in the obesity, uninsured or income field once the
    benchmark sentence is built, TypeError for a text diabetes value against
    a benchmark that is a number or missing, and ValueError when diabetes
    and benchmark are both text, which compare but do not format. *)
Theorem risk_explanation_raises_on_text (str_float : Q → string)
    (texas_diabetes : option cell) (row : Row) (s : string) :
  ((∃ p, benchmark_part texas_diabetes row = Ok p) →
   cells row !! "Obesity" = Some (Str s)
   ∨ cells row !! "Uninsured" = Some (Str s)
   ∨ cells row !! "Median_Income" = Some (Str s) →
   risk_explanation str_float texas_diabetes row = Raise TypeError)
  ∧ (cells row !! "Diabetes" = Some (Str s) →
     ∀ t, texas_diabetes = Some t → is_str t = false →
          risk_explanation str_float texas_diabetes row = Raise TypeError)
  ∧ (cells row !! "Diabetes" = Some (Str s) →
     ∀ t, texas_diabetes = Some (Str t) →
          risk_explanation str_float texas_diabetes row = Raise ValueError).
Proof.
  split; [|split].
  - intros [p Hp] Htext. unfold risk_explanation, explanation_parts, drivers.
    rewrite Hp. simpl.
    destruct (driver_rule_outcome row "Obesity" OpGe 35 "higher obesity")
      as [[d1 E1]|[E1 _]]; rewrite E1; [simpl|done].
    destruct (driver_rule_outcome row "Uninsured" OpGe 15 "higher uninsured rate")
      as [[d2 E2]|[E2 _]]; rewrite E2; [simpl|done].
    destruct (driver_rule_outcome row "Median_Income" OpLe 60000
                "lower median income") as [[d3 E3]|[E3 _]]; rewrite E3; [|done].
    exfalso. destruct Htext as [H|[H|H]].
    + rewrite (driver_rule_text _ _ _ _ _ _ H) in E1. discriminate.
    + rewrite (driver_rule_text _ _ _ _ _ _ H) in E2. discriminate.
    + rewrite (driver_rule_text _ _ _ _ _ _ H) in E3. discriminate.
  - intros Hd t -> Ht. unfold risk_explanation, explanation_parts, benchmark_part.
    rewrite Hd. by destruct t.
  - intros Hd t ->. unfold risk_explanation, explanation_parts, benchmark_part.
    by rewrite Hd.
Qed.

Lemma risk_explanation_raises_on_text_witness :
  risk_explanation Demo.str_float (Some (Float 11))
    (mkRow "Harris" {[ "Diabetes" := Float 14; "Obesity" := Str "high" ]})
  = Raise TypeError.
Proof.
  refine (proj1 (risk_explanation_raises_on_text Demo.str_float
                   (Some (Float 11)) _ "high") _ _).
  - eexists. vm_compute. reflexivity.
  - left. vm_compute. reflexivity.
Defined.


Ltac sentence_start :=
  first [ apply Forall_nil_2
        | apply Forall_cons_2;
          [eexists _, _; split; [reflexivity|done] | apply Forall_nil_2] ].

Lemma benchmark_part_start (texas_diabetes : option cell) (row : Row)
    (p : list string) :
  benchmark_part texas_diabetes row = Ok p → Forall not_fallback_start p.
Proof.
  unfold benchmark_part.
  destruct texas_diabetes as [t|]; [|by intros [= <-]].
  destruct (cells row !! "Diabetes") as [d|]; [|by intros [= <-]].
  destruct (notna d); [|by intros [= <-]].
  destruct (py_test OpGt d t) as [above|e]; simpl; [|discriminate].
  destruct (Fmt.cell_fixed false 1 t) as [shown|e]; simpl; [|discriminate].
  destruct above; intros [= <-]; sentence_start.
Qed.

Lemma category_part_start (str_float : Q → string) (row : Row) :
  Forall not_fallback_start (category_part str_float row).
Proof.
  unfold category_part. destruct (cells row !! "Risk_Category") as [c|];
    [destruct (notna c)|]; sentence_start.
Qed.

Lemma drivers_part_start (ds : list string) :
  Forall not_fallback_start (drivers_part ds).
Proof. destruct ds; sentence_start. Qed.

Lemma pm25_part_start (row : Row) : Forall not_fallback_start (pm25_part row).
Proof.
  unfold pm25_part. destruct (cells row !! "PM2.5") as [c|];
    [destruct (notna c)|]; sentence_start.
Qed.

Lemma join_start (sep x : string) (l : list string) :
  not_fallback_start x → not_fallback_start (Text.join sep (x :: l)).
Proof.
  intros (c & rest & -> & Hc). destruct l; simpl; [by exists c, rest|].
  eexists c, _. split; [reflexivity|done].
Qed.

Lemma absent_or_missing_notna (row : Row) (name : string) :
  absent_or_missing row name →
  match cells row !! name with
  | Some c => notna c = false
  | None => True
  end.
Proof. by intros [->| ->]. Qed.

(** X12.  The explanation is the fallback text exactly when no sentence
    qualifies.  It is returned when the benchmark or the diabetes value is
    missing, the category and the PM2.5 value are missing and no threshold
    rule fires; and when it is returned the list of sentences is empty: no
    sentence of the program reads like it. *)
Theorem risk_explanation_fallback (str_float : Q → string)
    (texas_diabetes : option cell) (row : Row) :
  (texas_diabetes = None ∨ absent_or_missing row "Diabetes" →
   absent_or_missing row "Risk_Category" →
   absent_or_missing row "PM2.5" →
   drivers row = Ok [] →
   risk_explanation str_float texas_diabetes row
   = Ok "Ask about another county or explore the Rankings tab.")
  ∧ (risk_explanation str_float texas_diabetes row
     = Ok "Ask about another county or explore the Rankings tab." →
     explanation_parts str_float texas_diabetes row = Ok []).
Proof.
  split.
  - intros Hb Hc Hp Hd. unfold risk_explanation, explanation_parts.
    assert (benchmark_part texas_diabetes row = Ok []) as ->.
    { unfold benchmark_part. destruct Hb as [->|Hb]; [done|].
      apply absent_or_missing_notna in Hb.
      destruct texas_diabetes; [|done].
      destruct (cells row !! "Diabetes"); [by rewrite Hb|done]. }
    rewrite Hd. simpl.
    apply absent_or_missing_notna in Hc, Hp. unfold category_part, pm25_part.
    destruct (cells row !! "Risk_Category"); rewrite ?Hc;
      destruct (cells row !! "PM2.5"); rewrite ?Hp; reflexivity.
  - unfold risk_explanation.
    destruct (explanation_parts str_float texas_diabetes row)
      as [[|x l]|e] eqn:E; cbn [rbind]; [done| |discriminate].
    change (Ok (Text.join " " (x :: l))
            = Ok "Ask about another county or explore the Rankings tab."
            → Ok (x :: l) = Ok []).
    intros [= Hj]. exfalso.
    assert (Hx : not_fallback_start x).
    { unfold explanation_parts in E.
      destruct (benchmark_part texas_diabetes row) as [p1|] eqn:E1;
        simpl in E; [|discriminate].
      destruct (drivers row) as [ds|]; simpl in E; [|discriminate].
      injection E as E.
      assert (Hall : Forall not_fallback_start (x :: l)).
      { rewrite <- E. repeat apply Forall_app_2;
          eauto using benchmark_part_start, category_part_start,
                      drivers_part_start, pm25_part_start. }
      by apply Forall_cons in Hall as [? _]. }
    destruct (join_start " " x l Hx) as (c & rest & Hc & Hne).
    assert (Hs : String c rest
                 = "Ask about another county or explore the Rankings tab.")
      by (rewrite <- Hc; exact Hj).
    injection Hs as -> _. done.
Qed.

Lemma risk_explanation_fallback_witness :
  risk_explanation Demo.str_float None (mkRow "Loving" ∅)
  = Ok "Ask about another county or explore the Rankings tab.".
Proof.
  apply (proj1 (risk_explanation_fallback Demo.str_float None (mkRow "Loving" ∅)));
    first [by left | by (left; reflexivity) | reflexivity].
Defined.

(** ** The sidebar and the chat page *)

Lemma digits_not_na (n : N) : Fmt.digits n ≠ "N/A".
Proof.
  unfold Fmt.digits. destruct (N.to_uint n) as [|d|d|d|d|d|d|d|d|d|d]; cbn;
    discriminate.
Qed.

Lemma str_int_not_na (z : Z) : Fmt.str_int z ≠ "N/A".
Proof.
  unfold Fmt.str_int. destruct (z <? 0)%Z.
  - discriminate.
  - apply digits_not_na.
Qed.

Lemma trunc_inject_Z (z : Z) : Fmt.trunc (inject_Z z) = z.
Proof. unfold Fmt.trunc. simpl. apply Z.quot_1_r. Qed.

Lemma sidebar_rank_ok (int_of_text : string → option Z) (row : Row) :
  no_text row "Risk_Rank" → ∃ s, sidebar_rank int_of_text row = Ok s.
Proof.
  intros Hnt. unfold sidebar_rank.
  destruct (cells row !! "Risk_Rank") as [[|z|q|s]|] eqn:E; simpl; eauto.
  by destruct (Hnt s).
Qed.

(** X13.  The sidebar's rank metric never raises on a rank that is a finite
    number, missing or absent: it shows "N/A" exactly when the rank is
    absent or missing, and otherwise the rank cut to an integer toward
    zero.  (An infinite rank passes [pd.notna] and makes [int] raise
    [OverflowError]; it is not a cell of the model and is not covered.) *)
Theorem sidebar_rank_outcome (int_of_text : string → option Z) (row : Row) :
  no_text row "Risk_Rank" →
  ∃ s,
    sidebar_rank int_of_text row = Ok s
    ∧ (s = "N/A" ↔ absent_or_missing row "Risk_Rank")
    ∧ ∀ c x, cells row !! "Risk_Rank" = Some c → num_val c = Some x →
             s = Fmt.str_int (Fmt.trunc x).
Proof.
  intros Hnt. unfold sidebar_rank, absent_or_missing.
  destruct (cells row !! "Risk_Rank") as [[|z|q|s]|] eqn:E; simpl.
  - exists "N/A". split; [done|]. split; [by split; auto|]. by intros c x [= <-].
  - eexists. split; [done|]. split.
    + split; [by intros ?%str_int_not_na | by intros [|]].
    + intros c x [= <-] [= <-]. by rewrite trunc_inject_Z.
  - eexists. split; [done|]. split.
    + split; [by intros ?%str_int_not_na | by intros [|]].
    + by intros c x [= <-] [= <-].
  - by destruct (Hnt s).
  - exists "N/A". split; [done|]. split; [by split; auto|]. by intros c x [=].
Qed.

Lemma sidebar_rank_outcome_witness :
  sidebar_rank Demo.int_of_text Demo.loving = Ok "N/A"
  ∧ sidebar_rank Demo.int_of_text Demo.harris = Ok "1".
Proof.
  split.
  - destruct (sidebar_rank_outcome Demo.int_of_text Demo.loving)
      as (s & Hs & [_ Hna] & _).
    + intros s Hs. vm_compute in Hs. discriminate Hs.
    + rewrite Hs, Hna; [done|]. right. vm_compute. reflexivity.
  - destruct (sidebar_rank_outcome Demo.int_of_text Demo.harris)
      as (s & Hs & _ & Hnum).
    + intros s Hs. vm_compute in Hs. discriminate Hs.
    + rewrite Hs, (Hnum (Int 1) 1%Q); [done| |done]. vm_compute. reflexivity.
Defined.


Lemma rbind_avoids {A B} (e : exn) (m : result A) (k : A → result B) :
  m ≠ Raise e → (∀ a, k a ≠ Raise e) → rbind m k ≠ Raise e.
Proof. intros Hm Hk. destruct m as [a|e']; simpl; [apply Hk | congruence]. Qed.

Lemma getitem_no_index_error (row : Row) (name : string) :
  getitem row name ≠ Raise IndexError.
Proof. unfold getitem. by destruct (cells row !! name). Qed.

Lemma cell_fixed_no_index_error (grouped : bool) (d : nat) (c : cell) :
  Fmt.cell_fixed grouped d c ≠ Raise IndexError.
Proof. by destruct c. Qed.

Lemma to_int_no_index_error (int_of_text : string → option Z) (c : cell) :
  to_int int_of_text c ≠ Raise IndexError.
Proof. destruct c as [| | |s]; simpl; try done. by destruct (int_of_text s). Qed.

Lemma py_test_no_index_error (op : order_test) (a b : cell) :
  py_test op a b ≠ Raise IndexError.
Proof.
  destruct a, b; simpl; try done;
    repeat match goal with
           | |- context [match ?x with _ => _ end] => destruct x
           end; done.
Qed.

Lemma stats_response_no_index_error (str_float : Q → string)
    (int_of_text : string → option Z) (county : string) (row : Row) :
  stats_response str_float int_of_text county row ≠ Raise IndexError.
Proof.
  unfold stats_response.
  repeat (apply rbind_avoids;
          [first [apply getitem_no_index_error | apply cell_fixed_no_index_error
                 | apply to_int_no_index_error] | intros ?]).
  done.
Qed.

Lemma driver_rule_no_index_error (row : Row) (name : string) (op : order_test)
    (threshold : Z) (label : string) :
  driver_rule row name op threshold label ≠ Raise IndexError.
Proof.
  unfold driver_rule. destruct (cells row !! name) as [c|]; [|done].
  destruct (notna c); [|done].
  apply rbind_avoids; [apply py_test_no_index_error|done].
Qed.

Lemma risk_explanation_no_index_error (str_float : Q → string)
    (texas_diabetes : option cell) (row : Row) :
  risk_explanation str_float texas_diabetes row ≠ Raise IndexError.
Proof.
  unfold risk_explanation, explanation_parts.
  apply rbind_avoids; [|done]. apply rbind_avoids.
  - unfold benchmark_part. destruct texas_diabetes as [t|]; [|done].
    destruct (cells row !! "Diabetes") as [d|]; [|done].
    destruct (notna d); [|done].
    apply rbind_avoids; [apply py_test_no_index_error|intros above].
    apply rbind_avoids; [apply cell_fixed_no_index_error|intros shown].
    by destruct above.
  - intros p1. apply rbind_avoids; [|done]. unfold drivers.
    repeat (apply rbind_avoids; [apply driver_rule_no_index_error|intros ?]).
    done.
Qed.

Lemma chatbot_no_index_error (str_float : Q → string)
    (int_of_text : string → option Z) (data : DataFrame) (message : string) :
  chatbot str_float int_of_text data message ≠ Raise IndexError.
Proof.
  unfold chatbot.
  assert (Hcb : ∀ cs,
            (∀ x, x ∈ cs → x ∈ County <$> rows data) →
            chatbot_scan str_float int_of_text data (Text.lower message) cs
            ≠ Raise IndexError).
  { induction cs as [|x cs IH]; intros Hcs; simpl; [done|].
    destruct (Text.contains _ _).
    - destruct (county_snapshot_hit data x) as (r & _ & _ & -> & _);
        [apply Hcs; left|]. simpl. apply stats_response_no_index_error.
    - apply IH. intros y Hy. apply Hcs. by right. }
  by apply Hcb.
Qed.

Section PagesFacts.
Variable str_float : Q → string.
Variable int_of_text : string → option Z.

Lemma county_for_listed (cs : list string) (selected user_input c : string) :
  selected ∈ lookup_options cs →
  county_for cs selected user_input = Some c → c ∈ cs.
Proof.
  unfold county_for, lookup_options, find_county_from_text. intros Hsel.
  destruct (first_mentioned cs _) as [c'|] eqn:Hf.
  - intros [= <-]. apply first_mentioned_some in Hf as (pre & post & -> & _).
    apply elem_of_app. right. left.
  - case_decide as Hc; [done|]. intros [= <-].
    by apply elem_of_cons in Hsel as [?|?].
Qed.

(** X14.  The lookups of the chat page never miss.  On a loaded table and
    with a selection taken from the select box, the county the chat settles
    on is in the county list and its row is found, so the answer is the
    statistics of the responder followed by the explanation of that row,
    with whatever those two raise and never an IndexError; with no county
    in the message and no selection the answer is the guidance message. *)
Theorem chat_answer_lookup (raw : DataFrame) (app : App)
    (selected user_input : string) :
  load raw = Ok app →
  selected ∈ lookup_options (counties app) →
  chat_answer str_float int_of_text app selected user_input ≠ Raise IndexError
  ∧ (county_for (counties app) selected user_input = None →
     chat_answer str_float int_of_text app selected user_input = Ok guidance)
  ∧ (∀ c, county_for (counties app) selected user_input = Some c →
       c ∈ counties app
       ∧ ∃ row,
           county_snapshot (data app) c = Ok row ∧ County row = c
           ∧ chat_answer str_float int_of_text app selected user_input
             = let* answer := chatbot str_float int_of_text (data app) c in
               let* explanation :=
                 risk_explanation str_float (texas_diabetes app) row in
               Ok (answer +:+ "

**Quick interpretation:** " +:+ explanation)).
Proof.
  intros Hload Hsel.
  assert (Hsome : ∀ c, county_for (counties app) selected user_input = Some c →
       c ∈ counties app
       ∧ ∃ row,
           county_snapshot (data app) c = Ok row ∧ County row = c
           ∧ chat_answer str_float int_of_text app selected user_input
             = let* answer := chatbot str_float int_of_text (data app) c in
               let* explanation :=
                 risk_explanation str_float (texas_diabetes app) row in
               Ok (answer +:+ "

**Quick interpretation:** " +:+ explanation)).
  { intros c Hc. pose proof (county_for_listed _ _ _ _ Hsel Hc) as Hin.
    split; [done|].
    destruct (county_snapshot_hit (data app) c (load_names _ _ _ Hload Hin))
      as (row & _ & _ & Hrow & _ & HC & _).
    exists row. split; [done|]. split; [done|].
    unfold chat_answer. by rewrite Hc, Hrow. }
  split; [|split; [|exact Hsome]].
  - destruct (county_for (counties app) selected user_input) as [c|] eqn:Hc.
    + destruct (Hsome c eq_refl) as (Hin & row & Hrow & HC & ->).
      apply rbind_avoids; [apply chatbot_no_index_error|intros answer].
      apply rbind_avoids; [apply risk_explanation_no_index_error|done].
    + unfold chat_answer. rewrite Hc. discriminate.
  - intros Hc. unfold chat_answer. by rewrite Hc.
Qed.


(** X15.  The quick lookup of the sidebar never misses either: for a
    selection taken from the select box of a loaded table whose ranks are
    finite numbers or missing, it shows nothing for "(choose)" and otherwise
    the four metrics of the selected county's row, the rank being "N/A" or
    an integer.  (A table with an infinite rank is not covered.) *)
Theorem quick_lookup_outcome (raw : DataFrame) (app : App) (selected : string) :
  load raw = Ok app →
  selected ∈ lookup_options (counties app) →
  (∀ r, r ∈ rows (data app) → no_text r "Risk_Rank") →
  ∃ metrics,
    quick_lookup str_float int_of_text (data app) selected = Ok metrics
    ∧ (selected = "(choose)" → metrics = [])
    ∧ (selected ≠ "(choose)" →
       ∃ row rank,
         county_snapshot (data app) selected = Ok row
         ∧ County row = selected
         ∧ sidebar_rank int_of_text row = Ok rank
         ∧ metrics
           = [("Diabetes %", metric str_float row "Diabetes");
              ("Uninsured %", metric str_float row "Uninsured");
              ("Obesity %", metric str_float row "Obesity");
              ("Risk Rank", rank)]).
Proof.
  intros Hload Hsel Hnt. unfold quick_lookup.
  case_decide as Hc; [exists []; by repeat split|].
  apply elem_of_cons in Hsel as [?|Hin]; [done|].
  destruct (county_snapshot_hit (data app) selected (load_names _ _ _ Hload Hin))
    as (row & pre & post & Hrow & Hrows & HC & _).
  destruct (sidebar_rank_ok int_of_text row) as (rank & Hrank).
  { apply Hnt. rewrite Hrows. apply elem_of_app. right. left. }
  rewrite Hrow. simpl. rewrite Hrank. simpl. eexists. split; [done|].
  split; [done|]. intros _. by exists row, rank.
Qed.

End PagesFacts.

Lemma chat_answer_lookup_witness :
  ∃ app,
    load Demo.table = Ok app
    ∧ chat_answer Demo.str_float Demo.int_of_text app "(choose)" "hello"
      = Ok guidance.
Proof.
  assert (∃ app, load Demo.table = Ok app) as [app Hload]
    by (eexists; vm_compute; reflexivity).
  exists app. split; [exact Hload|].
  destruct (chat_answer_lookup Demo.str_float Demo.int_of_text Demo.table app
              "(choose)" "hello" Hload) as (_ & Hnone & _); [left|].
  apply Hnone. vm_compute in Hload. injection Hload as <-.
  vm_compute. reflexivity.
Defined.

Lemma quick_lookup_outcome_witness :
  ∃ app,
    load Demo.table = Ok app
    ∧ quick_lookup Demo.str_float Demo.int_of_text (data app) "(choose)" = Ok []
    ∧ quick_lookup Demo.str_float Demo.int_of_text (data app) "Harris"
      = Ok [("Diabetes %", "14.2"); ("Uninsured %", "18");
            ("Obesity %", "36"); ("Risk Rank", "1")].
Proof.
  assert (∃ app, load Demo.table = Ok app) as [app Hload]
    by (eexists; vm_compute; reflexivity).
  exists app. split; [exact Hload|].
  assert (Hnt : ∀ r, r ∈ rows (data app) → no_text r "Risk_Rank").
  { vm_compute in Hload. injection Hload as <-. intros r Hr s Hs.
    simpl in Hr.
    repeat (apply elem_of_cons in Hr as [->|Hr];
            [vm_compute in Hs; discriminate Hs|]).
    by apply elem_of_nil in Hr. }
  split.
  - destruct (quick_lookup_outcome Demo.str_float Demo.int_of_text Demo.table
                app "(choose)" Hload) as (metrics & Hq & Hnone & _);
      [left|exact Hnt|].
    by rewrite Hq, Hnone.
  - destruct (quick_lookup_outcome Demo.str_float Demo.int_of_text Demo.table
                app "Harris" Hload) as (metrics & Hq & _ & Hsome);
      [|exact Hnt|].
    + vm_compute in Hload. injection Hload as <-. vm_compute. do 2 right. left.
    + destruct Hsome as (row & rank & Hrow & _ & Hrank & ->); [discriminate|].
      rewrite Hq. vm_compute in Hload. injection Hload as <-.
      vm_compute in Hrow. injection Hrow as <-.
      vm_compute in Hrank. injection Hrank as <-.
      vm_compute. reflexivity.
Defined.

(** ** The chat history *)

Lemma dialogue_shape_user (h : list message) (u : string) :
  dialogue_shape h → dialogue_shape (h ++ [("user", u)]).
Proof.
  intros (H0 & HS & Hr). split; [|split].
  - intros a. destruct h as [|m h]; [done|]. apply H0.
  - intros i a. destruct (decide (S i < length h)%nat) as [Hlt|Hge].
    + rewrite (lookup_app_l h _ (S i)), (lookup_app_l h _ i) by lia. apply HS.
    + rewrite (lookup_app_r h _ (S i)) by lia.
      destruct (S i - length h)%nat as [ | [ | k ] ] eqn:E; simpl; discriminate.
  - intros m [Hm | ->%list_elem_of_singleton]%elem_of_app; [by apply Hr|by left].
Qed.

Lemma dialogue_shape_answer (h : list message) (u a : string) :
  dialogue_shape (h ++ [("user", u)]) →
  dialogue_shape ((h ++ [("user", u)]) ++ [("assistant", a)]).
Proof.
  intros (H0 & HS & Hr). split; [|split].
  - intros b. rewrite lookup_app_l; [apply H0|]. rewrite length_app. simpl. lia.
  - intros i b.
    destruct (decide (S i < length (h ++ [("user", u)]))%nat) as [Hlt|Hge].
    + rewrite (lookup_app_l (h ++ [("user", u)]) _ (S i)),
        (lookup_app_l (h ++ [("user", u)]) _ i) by lia. apply HS.
    + rewrite (lookup_app_r (h ++ [("user", u)]) _ (S i)) by lia.
      rewrite length_app in *. simpl in *.
      destruct (S i - (length h + 1))%nat as [|k] eqn:E; simpl; [|by destruct k].
      intros _. exists u. assert (i = length h) as -> by lia.
      rewrite (lookup_app_l (h ++ [("user", u)]) _ (length h))
        by (rewrite length_app; simpl; lia).
      rewrite (lookup_app_r h _ (length h)) by lia. by rewrite Nat.sub_diag.
  - intros m [Hm | ->%list_elem_of_singleton]%elem_of_app; [by apply Hr|by right].
Qed.

Section HistoryFacts.
Variable str_float : Q → string.
Variable int_of_text : string → option Z.

Lemma chat_page_history (app : App) (selected : string)
    (user_input : option string) (messages : list message) :
  messages `prefix_of`
    (chat_page str_float int_of_text app selected user_input messages).1
  ∧ (dialogue_shape messages →
     dialogue_shape
       (chat_page str_float int_of_text app selected user_input messages).1).
Proof.
  unfold chat_page. destruct user_input as [[|c text]|]; simpl; [done| |done].
  destruct (chat_answer _ _ _ _ _) as [answer|e]; simpl.
  - split.
    + rewrite <- app_assoc. by apply prefix_app_r.
    + intros H. by apply dialogue_shape_answer, dialogue_shape_user.
  - split; [by apply prefix_app_r|]. apply dialogue_shape_user.
Qed.

(** X16.  The history only grows, and keeps its shape.  Whatever the
    selections and inputs of a series of runs, answered or stopped by an
    exception, the history they start from is a prefix of the history they
    leave; and a history started empty never opens with an answer, has each
    answer right after a message of the user, and holds no other role. *)
Theorem chat_history_invariant (app : App)
    (turns : list (string * option string)) (messages : list message) :
  messages `prefix_of` run_chat str_float int_of_text app turns messages
  ∧ (dialogue_shape messages →
     dialogue_shape (run_chat str_float int_of_text app turns messages))
  ∧ dialogue_shape (run_chat str_float int_of_text app turns []).
Proof.
  assert (H : ∀ messages,
    messages `prefix_of` run_chat str_float int_of_text app turns messages
    ∧ (dialogue_shape messages →
       dialogue_shape (run_chat str_float int_of_text app turns messages))).
  { induction turns as [|[selected user_input] turns IH]; intros ms; simpl;
      [done|].
    destruct (chat_page_history app selected user_input ms) as [Hp Hd].
    destruct (IH (chat_page str_float int_of_text app selected user_input ms).1)
      as [Hp' Hd'].
    split; [by etrans|]. auto. }
  split; [apply H|]. split; [apply H|].
  apply H. split; [done|]. split; [done|]. by intros m ?%elem_of_nil.
Qed.

End HistoryFacts.

Lemma chat_history_invariant_witness :
  ∃ app,
    load Demo.table = Ok app
    ∧ run_chat Demo.str_float Demo.int_of_text app
        [("(choose)", Some "hello"); ("(choose)", None)] []
      = [("user", "hello"); ("assistant", guidance)]
    ∧ dialogue_shape
        (run_chat Demo.str_float Demo.int_of_text app
           [("(choose)", Some "hello"); ("(choose)", None)] []).
Proof.
  assert (∃ app, load Demo.table = Ok app) as [app Hload]
    by (eexists; vm_compute; reflexivity).
  exists app. split; [exact Hload|]. split.
  - vm_compute in Hload. injection Hload as <-. vm_compute. reflexivity.
  - apply (chat_history_invariant Demo.str_float Demo.int_of_text app _ []).
Defined.

(** ** The benchmark *)

Lemma head_filter_split {A} (P : A → Prop) `{!∀ x, Decision (P x)}
    (l : list A) (t : A) :
  head (filter P l) = Some t ↔
  ∃ pre post, l = pre ++ t :: post ∧ P t ∧ Forall (λ y, ¬ P y) pre.
Proof.
  split.
  - destruct (filter P l) as [|x rest] eqn:E; [done|]. intros [= ->].
    by apply filter_head_split in E.
  - intros (pre & post & -> & Ht & Hpre). rewrite filter_app.
    replace (filter P pre) with (@nil A).
    + by rewrite filter_cons_True.
    + symmetry. apply filter_empty_iff. by apply Forall_forall.
Qed.

Lemma texas_reference_head (data : DataFrame) :
  texas_reference data
  = if bool_decide ("Diabetes" ∈ columns data)
    then col "Diabetes"
           <$> head (filter (λ r, Text.lower (County r) = "texas") (rows data))
    else None.
Proof.
  unfold texas_reference.
  destruct (filter _ (rows data)); simpl; by destruct (bool_decide _).
Qed.

Lemma head_filter_fmap (f : Row → Row) (l : list Row) :
  (∀ r, County (f r) = County r) →
  head (filter (λ r, Text.lower (County r) = "texas") (f <$> l))
  = f <$> head (filter (λ r, Text.lower (County r) = "texas") l).
Proof.
  intros Hf. induction l as [|r l IH]; [done|].
  rewrite fmap_cons, !filter_cons, Hf. by case_decide.
Qed.

Lemma head_filter_merge (right : list (string * cell)) (l : list Row) :
  (∀ kv, kv ∈ right → Text.lower kv.1 ≠ "texas") →
  head (filter (λ r, Text.lower (County r) = "texas") (l ≫= merge_row right))
  = set_cell "Risk_Percentile" NaN
      <$> head (filter (λ r, Text.lower (County r) = "texas") l).
Proof.
  intros Hright. induction l as [|r l IH]; [done|].
  rewrite bind_cons, filter_app, filter_cons. case_decide as Hr.
  - replace (merge_row right r) with [set_cell "Risk_Percentile" NaN r].
    + by rewrite filter_cons_True.
    + unfold merge_row.
      replace (filter _ right) with (@nil (string * cell)); [done|].
      symmetry. apply filter_empty_iff. intros kv Hkv E.
      apply (Hright kv Hkv). by rewrite E.
  - replace (filter _ (merge_row right r)) with (@nil Row); [exact IH|].
    symmetry. apply filter_empty_iff.
    intros r' (c & -> & _)%merge_row_inv. exact Hr.
Qed.

Lemma derive_percentile_benchmark (data data' : DataFrame) :
  derive_percentile data = Ok data' →
  texas_reference data' = texas_reference data.
Proof.
  unfold derive_percentile. destruct (_ && _); [|by intros [= ->]].
  destruct (Rank.rank_pct _) as [ranks|e]; simpl; [|discriminate].
  intros [= <-]. rewrite !texas_reference_head. simpl.
  assert (Hcols : bool_decide ("Diabetes" ∈ columns data ++ ["Risk_Percentile"])
                  = bool_decide ("Diabetes" ∈ columns data)).
  { apply bool_decide_ext. rewrite elem_of_app, list_elem_of_singleton.
    split; [intros [?|?]; [done|discriminate] | by left]. }
  rewrite Hcols. destruct (bool_decide ("Diabetes" ∈ columns data)); [|done].
  unfold merge_left. rewrite head_filter_merge.
  - destruct (head _) as [r|]; simpl; [|done]. by rewrite col_set_cell_ne.
  - intros [k c] Hkv. apply elem_of_zip_l in Hkv.
    apply list_elem_of_fmap in Hkv as (r & -> & Hr).
    by apply list_elem_of_filter in Hr as [? _].
Qed.

Lemma derive_category_benchmark (data data' : DataFrame) :
  derive_category data = Ok data' →
  texas_reference data' = texas_reference data.
Proof.
  unfold derive_category. destruct (_ && _); [|by intros [= ->]].
  destruct (cut_column _) as [cats|e] eqn:Ec; simpl; [|discriminate].
  intros [= <-]. rewrite !texas_reference_head. simpl.
  assert (Hcols : bool_decide ("Diabetes" ∈ columns data ++ ["Risk_Category"])
                  = bool_decide ("Diabetes" ∈ columns data)).
  { apply bool_decide_ext. rewrite elem_of_app, list_elem_of_singleton.
    split; [intros [?|?]; [done|discriminate] | by left]. }
  rewrite Hcols. destruct (bool_decide ("Diabetes" ∈ columns data)); [|done].
  apply cut_column_ok in Ec as ->.
  rewrite <- list_fmap_compose, zip_with_fmap_l, zip_with_diag.
  rewrite head_filter_fmap by done.
  destruct (head _) as [r|]; simpl; [|done]. by rewrite col_set_cell_ne.
Qed.

(** X17.  The benchmark the explanations use is the Diabetes value of the
    first statewide row of the trimmed input table, when the table has a
    Diabetes column and such a row, and there is none otherwise: the two
    derivations leave it as it is. *)
Theorem benchmark_is_first_statewide_value (raw : DataFrame) (app : App) :
  load raw = Ok app →
  texas_diabetes app = texas_reference (normalize raw)
  ∧ ∀ v, texas_diabetes app = Some v ↔
         "Diabetes" ∈ columns raw
         ∧ ∃ pre t post,
             rows (normalize raw) = pre ++ t :: post
             ∧ Text.lower (County t) = "texas"
             ∧ Forall (λ r, Text.lower (County r) ≠ "texas") pre
             ∧ v = col "Diabetes" t.
Proof.
  intros (data1 & H1 & H2 & _ & ->)%load_inv.
  assert (E : texas_reference (data app) = texas_reference (normalize raw)).
  { by rewrite (derive_category_benchmark _ _ H2),
               (derive_percentile_benchmark _ _ H1). }
  split; [exact E|]. intros v. rewrite E, texas_reference_head. simpl.
  case_bool_decide as Hc.
  - split.
    + destruct (head _) as [t|] eqn:Ht; [|done]. intros [= <-].
      apply head_filter_split in Ht as (pre & post & Hrows & Htx & Hpre).
      split; [done|]. by exists pre, t, post.
    + intros (_ & pre & t & post & Hrows & Htx & Hpre & ->).
      replace (head _) with (Some t); [done|]. symmetry.
      apply head_filter_split. by exists pre, post.
  - split; [done|]. by intros [? _].
Qed.

Lemma benchmark_is_first_statewide_value_witness :
  ∃ app, load Demo.table = Ok app ∧ texas_diabetes app = Some (Float 11).
Proof.
  assert (∃ app, load Demo.table = Ok app) as [app Hload]
    by (eexists; vm_compute; reflexivity).
  exists app. split; [exact Hload|].
  rewrite (proj1 (benchmark_is_first_statewide_value Demo.table app Hload)).
  vm_compute. reflexivity.
Defined.

(** ** The highest score *)

Lemma count_all_le (x : Q) (l : list Q) :
  Forall (λ y, (y <= x)%Q) l →
  (Rank.count_lt x l + Rank.count_eq x l = length l)%nat.
Proof.
  unfold Rank.count_lt, Rank.count_eq. induction 1 as [|y l Hy _ IH]; [done|].
  rewrite !filter_cons. repeat case_decide; simpl; try lia; exfalso; lra.
Qed.

Lemma pct_of_single_maximum (x : Q) (l : list Q) :
  x ∈ l →
  Forall (λ y, (y <= x)%Q) l →
  Rank.count_eq x l = 1%nat →
  (Rank.average x l / Rank.ofnat (length l) * 100 == 100)%Q.
Proof.
  intros Hx Hmax Hone.
  pose proof (RankFacts.length_pos x l Hx) as Hn.
  assert (Ha : (Rank.average x l == Rank.ofnat (length l))%Q).
  { pose proof (count_all_le x l Hmax) as Hc. rewrite Hone in Hc.
    rewrite <- Hc, RankFacts.ofnat_add. unfold Rank.average. rewrite Hone.
    unfold Qdiv. change (/ 2)%Q with (1 # 2)%Q.
    change (Rank.ofnat 1) with 1%Q. lra. }
  rewrite Ha. unfold Qdiv. rewrite Qmult_inv_r; [reflexivity|].
  intros E. rewrite E in Hn. by apply Qlt_irrefl in Hn.
Qed.

(** X18.  The county with the single highest score ends at the top: when
    county names are unique, a county whose score no other county reaches
    or ties gets the percentile 100 and hence the category "High". *)
Theorem single_highest_score_is_high (data : DataFrame) (x : Q) :
  "Risk_Percentile" ∉ columns data →
  "Risk_Category" ∉ columns data →
  "Risk_Score" ∈ columns data →
  Forall (λ r, is_str (col "Risk_Score" r) = false)
         (filter not_texas (rows data)) →
  NoDup (County <$> filter not_texas (rows data)) →
  Forall (λ y, (y <= x)%Q) (county_scores (rows data)) →
  Rank.count_eq x (county_scores (rows data)) = 1%nat →
  ∃ data1 data2,
    derive_percentile data = Ok data1
    ∧ derive_category data1 = Ok data2
    ∧ ∀ r, r ∈ rows data2 → not_texas r →
           num_val (col "Risk_Score" r) = Some x →
           (∃ p, col "Risk_Percentile" r = Float p ∧ (p == 100)%Q)
           ∧ col "Risk_Category" r = Str "High".
Proof.
  intros H1 H2 H3 Hnum Hnd Hmax Hone. eexists _, _.
  split; [by apply derive_percentile_ok|].
  split.
  { apply derive_category_ok; simpl.
    - rewrite elem_of_app, list_elem_of_singleton. intros [?|?]; done.
    - rewrite elem_of_app, list_elem_of_singleton. by right.
    - apply merged_rows_no_text. }
  simpl. intros r (r1 & -> & Hr1)%list_elem_of_fmap Hnt.
  rewrite col_with_category, !col_with_category_other by done. intros Hx.
  destruct (merged_row_percentile _ _ _ Hnd Hr1 Hnt Hx) as [Hin Hp].
  rewrite Hp.
  pose proof (pct_of_single_maximum x _ Hin Hmax Hone) as E.
  split; [eauto|].
  apply (CutFacts.high (Float _) _ eq_refl); lra.
Qed.

Lemma single_highest_score_is_high_witness :
  ∃ data1 data2,
    derive_percentile Demo.table = Ok data1
    ∧ derive_category data1 = Ok data2
    ∧ ∀ r, r ∈ rows data2 → not_texas r →
           num_val (col "Risk_Score" r) = Some 80%Q →
           col "Risk_Category" r = Str "High".
Proof.
  destruct (single_highest_score_is_high Demo.table 80)
    as (data1 & data2 & Hd1 & Hd2 & Htop);
    [by_decide | by_decide | by_decide | by_decide | by_decide | | |].
  { replace (county_scores (rows Demo.table)) with [80; 55; 40]%Q
      by (vm_compute; reflexivity).
    repeat apply Forall_cons_2; [done..|apply Forall_nil_2]. }
  { vm_compute. reflexivity. }
  exists data1, data2. split; [exact Hd1|]. split; [exact Hd2|].
  intros r Hr Hnt Hx. by apply Htop.
Defined.
